(** * chatbot.py: a line-oriented chat responder

    Shallow embedding of [src/chatbot/chatbot.py].  The file opens with a
    Java preamble (a [package] line, Java imports and a Javadoc comment,
    lines 1-16; [import java.util.Random;] on line 8 is Java and binds no
    Python name); the Python program proper is lines 17-97 and that is
    what is embedded here:

    - lines 17-29: the start-up [try] block that imports [transformers] and
      [torch], loads the tokenizer and the model and sets [has_dialogpt];
    - lines 32-53: the list [responses];
    - lines 55-78: [generate_response];
    - lines 81-97: the [while True] loop.

    The program is a module-level script, so every name it assigns lives in
    the module dictionary: the dictionary is a [gmap string pyval], a name is
    read with [load_name] (which raises [NameError] on an unbound name, as
    Python does) and written with [store_name].  Standard input, the log of
    observable events and the exceptions are explicit: a statement is a
    function from a state to a result and a new state.

    What the libraries do (importing, loading the pretrained files,
    tokenizing, sampling) is not part of the script: it is supplied by a
    [world].  Only exceptions derived from [Exception] are modelled;
    [KeyboardInterrupt] and [SystemExit] are outside the embedding, and
    writing to standard output is taken to succeed. *)

From stdpp Require Import base strings list gmap.

Open Scope string_scope.
Open Scope list_scope.
Open Scope nat_scope.

(** ** Exceptions *)

Inductive exc_class : Type :=
  | Exception
  | ImportError
  | ModuleNotFoundError
  | NameError
  | AttributeError
  | TypeError
  | IndexError
  | EOFError
  | OSError
  | RuntimeError
  | ValueError.

#[global] Instance exc_class_eq_dec : EqDecision exc_class.
Proof. solve_decision. Defined.

(** The method resolution order of each class, restricted to the classes
    above: [ModuleNotFoundError] derives from [ImportError], everything
    derives from [Exception]. *)
Definition mro (c : exc_class) : list exc_class :=
  match c with
  | Exception => [Exception]
  | ModuleNotFoundError => [ModuleNotFoundError; ImportError; Exception]
  | _ => [c; Exception]
  end.

Definition issubclass (c d : exc_class) : bool := bool_decide (d ∈ mro c).

Record exn : Type := Exn { exn_class : exc_class; exn_msg : string }.

#[global] Instance exn_eq_dec : EqDecision exn.
Proof. solve_decision. Defined.

(** [isinstance(e, c)], the test an [except c] clause performs. *)
Definition isinstance (e : exn) (c : exc_class) : bool :=
  issubclass (exn_class e) c.

(** [str(e)], what an f-string [{e}] inserts. *)
Definition str_exn (e : exn) : string := exn_msg e.

Definition name_error (x : string) : exn :=
  Exn NameError ("name '" +:+ x +:+ "' is not defined").

(** ** Values, events, state *)

Inductive pyval : Type :=
  | VBool (b : bool)
  | VStr (s : string)
  | VList (l : list string)
  | VModule (name : string)
  | VClass (name : string)
  | VObject (cls : string)
  | VFunction (name : string)
  | VExn (e : exn).

#[global] Instance pyval_eq_dec : EqDecision pyval.
Proof. solve_decision. Defined.

(** Truth value of an object, as [if] and the conditional expression test
    it. *)
Definition truthy (v : pyval) : bool :=
  match v with
  | VBool b => b
  | VStr s => negb (String.eqb s "")
  | VList l => negb (bool_decide (l = []))
  | _ => true
  end.

(** What the program does to the outside, in order. *)
Inductive event : Type :=
  | EvImport (module : string)
  | EvFromPretrained (cls : string) (name : string)
  | EvInput (line : option string)
  | EvCall (func : string) (arg : string)
  | EvEncode (text : string)
  | EvGenerate (input_ids : list nat)
  | EvDecode (ids : list nat)
  | EvPrint (s : string)
  | EvFlush.

#[global] Instance event_eq_dec : EqDecision event.
Proof. solve_decision. Defined.

Record pystate : Type := PyState {
  globals : gmap string pyval;  (* the module dictionary *)
  stdin : list string;          (* the lines not read yet *)
  reads : nat;                  (* calls of input() so far *)
  trace : list event            (* events so far, oldest first *)
}.

Definition set_globals (f : gmap string pyval → gmap string pyval)
    (st : pystate) : pystate :=
  PyState (f (globals st)) (stdin st) (reads st) (trace st).

Definition log (ev : event) (st : pystate) : pystate :=
  PyState (globals st) (stdin st) (reads st) (trace st ++ [ev]).

(** What is written to standard output: the arguments of the [print]
    calls, in order, one entry per call. *)
Definition printed (evs : list event) : list string :=
  omap (λ ev, match ev with EvPrint s => Some s | _ => None end) evs.

Definition stdout (st : pystate) : list string := printed (trace st).

(** ** Statements *)

Inductive result (A : Type) : Type :=
  | Ok (a : A)
  | Raise (e : exn)
  | OutOfFuel.
Arguments Ok {A} a.
Arguments Raise {A} e.
Arguments OutOfFuel {A}.

Definition M (A : Type) : Type := pystate → result A * pystate.

#[global] Instance M_ret : MRet M := λ A a st, (Ok a, st).

#[global] Instance M_bind : MBind M := λ A B f m st,
  match m st with
  | (Ok a, st') => f a st'
  | (Raise e, st') => (Raise e, st')
  | (OutOfFuel, st') => (OutOfFuel, st')
  end.

Definition raise {A} (e : exn) : M A := λ st, (Raise e, st).

Definition out_of_fuel {A} : M A := λ st, (OutOfFuel, st).

(** [try: body except ...: handler]; the handler decides by [isinstance]
    whether it takes the exception or raises it again. *)
Definition try_except {A} (body : M A) (handler : exn → M A) : M A := λ st,
  match body st with
  | (Raise e, st') => handler e st'
  | r => r
  end.

Definition emit (ev : event) : M unit := λ st, (Ok (), log ev st).

Definition load_name (x : string) : M pyval := λ st,
  match globals st !! x with
  | Some v => (Ok v, st)
  | None => (Raise (name_error x), st)
  end.

Definition store_name (x : string) (v : pyval) : M unit := λ st,
  (Ok (), set_globals (insert x v) st).

Definition del_name (x : string) : M unit := λ st,
  (Ok (), set_globals (delete x) st).

(** A call into a library: it logs the event, then returns or raises as the
    world says. *)
Definition external {A} (ev : event) (r : exn + A) : M A :=
  emit ev ;;
  match r with
  | inl e => raise e
  | inr a => mret a
  end.

(** [print(s)] *)
Definition print (s : string) : M unit := emit (EvPrint s).

(** [input()]: the next line, or [EOFError] when standard input is closed. *)
Definition input : M string := λ st,
  match stdin st with
  | [] =>
      (Raise (Exn EOFError "EOF when reading a line"),
       PyState (globals st) [] (S (reads st)) (trace st ++ [EvInput None]))
  | line :: rest =>
      (Ok line,
       PyState (globals st) rest (S (reads st))
               (trace st ++ [EvInput (Some line)]))
  end.

(** The number of [input()] calls so far: it selects what the libraries
    answer during the current turn. *)
Definition clock : M nat := λ st, (Ok (reads st), st).

(** [import sys; sys.stdout.flush()] *)
Definition import_sys_flush : M unit :=
  store_name "sys" (VModule "sys") ;;
  emit EvFlush.

(** ** The world *)

(** What the tokenizer, the model and the random generator answer during
    one call of [generate_response]. *)
Record call_world : Type := CallWorld {
  eos_token : string;
  tokenizer_encode : string → exn + list nat;
  model_generate : list nat → exn + list nat;
  tokenizer_decode : list nat → exn + string;
  random_index : nat
}.

(** [None] means the step succeeds, [Some e] that it raises [e]. *)
Record world : Type := World {
  import_transformers : option exn;
  import_torch : option exn;
  tokenizer_from_pretrained : option exn;
  model_from_pretrained : option exn;
  calls : nat → call_world
}.

Definition attempt (ev : event) (o : option exn) : M unit :=
  external ev (match o with Some e => inl e | None => inr () end).

(** ** The program *)

(** Lines 17-29. *)
Definition startup (w : world) : M unit :=
  try_except
    (attempt (EvImport "transformers") (import_transformers w) ;;
     store_name "AutoModelForCausalLM" (VClass "AutoModelForCausalLM") ;;
     store_name "AutoTokenizer" (VClass "AutoTokenizer") ;;
     attempt (EvImport "torch") (import_torch w) ;;
     store_name "torch" (VModule "torch") ;;
     _ ← load_name "AutoTokenizer" ;
     attempt (EvFromPretrained "AutoTokenizer" "microsoft/DialoGPT-small")
             (tokenizer_from_pretrained w) ;;
     store_name "tokenizer" (VObject "tokenizer") ;;
     _ ← load_name "AutoModelForCausalLM" ;
     attempt (EvFromPretrained "AutoModelForCausalLM" "microsoft/DialoGPT-small")
             (model_from_pretrained w) ;;
     store_name "model" (VObject "model") ;;
     store_name "has_dialogpt" (VBool true) ;;
     print "ChatBot initialized with DialoGPT")
    (λ e,
       if isinstance e ImportError then
         store_name "has_dialogpt" (VBool false) ;;
         print "ChatBot initialized with basic response system"
       else raise e).

(** Lines 32-53. *)
Definition responses : list string := [
  "Hello there!";
  "How can I help you today?";
  "That's interesting!";
  "Tell me more about that.";
  "I understand.";
  "That's a good point.";
  "I'm not sure I follow.";
  "Could you explain that differently?";
  "Let me think about that.";
  "I appreciate your perspective.";
  "What else would you like to talk about?";
  "I'm here to chat whenever you need.";
  "That sounds challenging.";
  "I'm glad to hear that!";
  "I'm sorry to hear that.";
  "That must be difficult.";
  "Congratulations!";
  "That's wonderful news!";
  "I'm learning new things every day.";
  "Thanks for sharing that with me."
].

(** [random.choice(responses)]: the name [random] is looked up first, then
    its attribute [choice], then the argument. *)
Definition random_choice_responses (cw : call_world) : M string :=
  r ← load_name "random" ;
  if decide (r = VModule "random") then
    l ← load_name "responses" ;
    match l with
    | VList xs =>
        match xs !! (random_index cw `mod` length xs) with
        | Some x => mret x
        | None => raise (Exn IndexError "Cannot choose from an empty sequence")
        end
    | _ => raise (Exn TypeError "object is not a sequence")
    end
  else raise (Exn AttributeError "object has no attribute 'choice'").

(** Lines 55-78. *)
Definition generate_response (cw : call_world) (input_text : string)
    : M string :=
  h ← load_name "has_dialogpt" ;
  if truthy h then
    try_except
      (_ ← load_name "tokenizer" ;
       let text := input_text +:+ eos_token cw in
       input_ids ← external (EvEncode text) (tokenizer_encode cw text) ;
       _ ← load_name "model" ;
       output ← external (EvGenerate input_ids) (model_generate cw input_ids) ;
       let new_ids := drop (length input_ids) output in
       response ← external (EvDecode new_ids) (tokenizer_decode cw new_ids) ;
       if truthy (VStr response) then mret response
       else random_choice_responses cw)
      (λ e,
         if isinstance e Exception then
           print ("Error generating DialoGPT response: " +:+ str_exn e) ;;
           random_choice_responses cw
         else raise e)
  else random_choice_responses cw.

Inductive ctl : Type := Continue | Break.

(** One turn of the loop, lines 82-97.  The names [input_text] and
    [response] are read back right after they are stored, so the value just
    stored is used directly. *)
Definition loop_body (w : world) : M ctl :=
  try_except
    (input_text ← input ;
     store_name "input_text" (VStr input_text) ;;
     f ← load_name "generate_response" ;
     response ← (if decide (f = VFunction "generate_response") then
                   n ← clock ;
                   emit (EvCall "generate_response" input_text) ;;
                   generate_response (calls w n) input_text
                 else raise (Exn TypeError "object is not callable")) ;
     store_name "response" (VStr response) ;;
     print response ;;
     import_sys_flush ;;
     mret Continue)
    (λ e,
       if isinstance e EOFError then mret Break
       else if isinstance e Exception then
         store_name "e" (VExn e) ;;
         print ("Error: " +:+ str_exn e) ;;
         import_sys_flush ;;
         del_name "e" ;;
         mret Continue
       else raise e).

(** Lines 81-97: [while True]; the fuel bounds the number of turns. *)
Fixpoint main_loop (w : world) (fuel : nat) : M unit :=
  match fuel with
  | 0 => out_of_fuel
  | S n =>
      c ← loop_body w ;
      match c with
      | Break => mret ()
      | Continue => main_loop w n
      end
  end.

(** The whole script. *)
Definition program (w : world) (fuel : nat) : M unit :=
  startup w ;;
  store_name "responses" (VList responses) ;;
  store_name "generate_response" (VFunction "generate_response") ;;
  main_loop w fuel.

Definition initial (lines : list string) : pystate :=
  PyState ∅ lines 0 [].

Definition run (w : world) (lines : list string) (fuel : nat)
    : result unit * pystate :=
  program w fuel (initial lines).

(** ** Describing runs *)

(** The first exception raised inside the start-up [try] block, if any. *)
Definition startup_failure (w : world) : option exn :=
  match import_transformers w with
  | Some e => Some e
  | None =>
      match import_torch w with
      | Some e => Some e
      | None =>
          match tokenizer_from_pretrained w with
          | Some e => Some e
          | None => model_from_pretrained w
          end
      end
  end.

(** The value [has_dialogpt] gets when the start-up block does not abort. *)
Definition model_available (w : world) : bool :=
  bool_decide (startup_failure w = None).

(** The library calls of the start-up block, up to the first that fails. *)
Definition startup_trace (w : world) : list event :=
  EvImport "transformers" ::
  match import_transformers w with
  | Some _ => []
  | None =>
      EvImport "torch" ::
      match import_torch w with
      | Some _ => []
      | None =>
          EvFromPretrained "AutoTokenizer" "microsoft/DialoGPT-small" ::
          match tokenizer_from_pretrained w with
          | Some _ => []
          | None =>
              [EvFromPretrained "AutoModelForCausalLM"
                                "microsoft/DialoGPT-small"]
          end
      end
  end.

(** The line the start-up block prints. *)
Definition banner (w : world) : list event :=
  match startup_failure w with
  | None => [EvPrint "ChatBot initialized with DialoGPT"]
  | Some e =>
      if isinstance e ImportError
      then [EvPrint "ChatBot initialized with basic response system"]
      else []
  end.

(** Appending events to the log, everything else untouched. *)
Definition log_all (evs : list event) (st : pystate) : pystate :=
  PyState (globals st) (stdin st) (reads st) (trace st ++ evs).

(** The global names [generate_response] reads. *)
Definition names_read : list string :=
  ["has_dialogpt"; "tokenizer"; "model"; "random"; "responses"].

Definition agree_on (xs : list string) (G G' : gmap string pyval) : Prop :=
  ∀ x, x ∈ xs → G !! x = G' !! x.

(** The global names the loop relies on and never assigns: those
    [generate_response] reads, and [generate_response] itself. *)
Definition kept_names : list string :=
  "generate_response" :: names_read.

(** The module dictionary when the loop is entered: the one a run without
    input is left with before its first turn. *)
Definition dictionary (w : world) : gmap string pyval :=
  globals (run w [] 0).2.

(** The module dictionary as the loop finds it: [b] is the value of
    [has_dialogpt]. *)
Definition loop_ready (b : bool) (G : gmap string pyval) : Prop :=
  G !! "has_dialogpt" = Some (VBool b) ∧
  G !! "generate_response" = Some (VFunction "generate_response") ∧
  G !! "responses" = Some (VList responses) ∧
  G !! "random" = None ∧
  (b = true →
   G !! "tokenizer" = Some (VObject "tokenizer") ∧
   G !! "model" = Some (VObject "model")).

(** [m] reads the module dictionary only at the names [xs], and changes
    nothing but the log: in two states that agree on [xs] it gives the same
    result and logs the same events. *)
Definition reads_only {A} (xs : list string) (m : M A) : Prop :=
  ∀ st st2, agree_on xs (globals st) (globals st2) →
    ∃ r evs, m st = (r, log_all evs st) ∧ m st2 = (r, log_all evs st2).

(** [m] keeps the property [I] of the module dictionary, and what it
    returns satisfies [Q]. *)
Definition preserves {A} (I : gmap string pyval → Prop) (m : M A)
    (Q : A → Prop) : Prop :=
  ∀ st, I (globals st) →
    I (globals (m st).2) ∧ ∀ a, (m st).1 = Ok a → Q a.

(** [responses] is bound to the list of lines 32-53. *)
Definition responses_intact (G : gmap string pyval) : Prop :=
  G !! "responses" = Some (VList responses).

(** The turn of the loop for [line] when [generate_response] raises the
    [NameError] and nothing else is written. *)
Definition failed_turn (line : string) : list event :=
  [EvInput (Some line); EvCall "generate_response" line;
   EvPrint "Error: name 'random' is not defined"; EvFlush].

Definition is_input (ev : event) : bool :=
  match ev with EvInput _ => true | _ => false end.

Definition is_load (ev : event) : bool :=
  match ev with EvFromPretrained _ _ => true | _ => false end.

Definition loads_of (cls : string) (ev : event) : bool :=
  match ev with
  | EvFromPretrained c _ => bool_decide (c = cls)
  | _ => false
  end.

(** The library calls of lines 59-72 as the world answers them: the events
    and the decoded text, or the exception that stopped them. *)
Definition dialogpt (cw : call_world) (input_text : string)
    : list event * (exn + string) :=
  let text := input_text +:+ eos_token cw in
  match tokenizer_encode cw text with
  | inl e => ([EvEncode text], inl e)
  | inr input_ids =>
      match model_generate cw input_ids with
      | inl e => ([EvEncode text; EvGenerate input_ids], inl e)
      | inr output =>
          let new_ids := drop (length input_ids) output in
          ([EvEncode text; EvGenerate input_ids; EvDecode new_ids],
           tokenizer_decode cw new_ids)
      end
  end.

Definition diagnostic (e : exn) : event :=
  EvPrint ("Error generating DialoGPT response: " +:+ str_exn e).

(** What a call of [generate_response] amounts to when the dictionary is
    [loop_ready b]. *)
Definition reply (b : bool) (cw : call_world) (input_text : string)
    : list event * result string :=
  if b then
    match dialogpt cw input_text with
    | (evs, inr s) =>
        if truthy (VStr s) then (evs, Ok s)
        else (evs ++ [diagnostic (name_error "random")],
              Raise (name_error "random"))
    | (evs, inl e) =>
        (evs ++ [diagnostic e], Raise (name_error "random"))
    end
  else ([], Raise (name_error "random")).

(** The lines one turn writes after a call that ended in [r]. *)
Definition answer (r : result string) : list event :=
  match r with
  | Ok s => [EvPrint s; EvFlush]
  | Raise e => [EvPrint ("Error: " +:+ str_exn e); EvFlush]
  | OutOfFuel => []
  end.

Definition turn_trace (b : bool) (cw : call_world) (line : string)
    : list event :=
  EvInput (Some line) :: EvCall "generate_response" line ::
  (reply b cw line).1 ++ answer (reply b cw line).2.

(** The events of the turns that read [lines], the first of them being
    read number [S n]. *)
Fixpoint loop_trace (b : bool) (w : world) (n : nat) (lines : list string)
    : list event :=
  match lines with
  | [] => []
  | line :: rest => turn_trace b (calls w (S n)) line ++ loop_trace b w (S n) rest
  end.

(** ** Worlds used in examples *)

Definition quiet_call : call_world :=
  CallWorld "<|endoftext|>" (λ _, inr [72; 105])
            (λ ids, inr (ids ++ [79; 75])) (λ _, inr "Hi") 0.

Definition failing_call : call_world :=
  CallWorld "<|endoftext|>" (λ _, inr [72; 105])
            (λ _, inl (Exn RuntimeError "boom")) (λ _, inr "Hi") 0.

Definition silent_call : call_world :=
  CallWorld "<|endoftext|>" (λ _, inr [72; 105])
            (λ ids, inr (ids ++ [0])) (λ _, inr "") 0.

(** [transformers] is not installed. *)
Definition world_without_transformers : world :=
  World (Some (Exn ModuleNotFoundError "No module named 'transformers'"))
        None None None (λ _, quiet_call).

(** Everything loads and the model answers. *)
Definition world_with_model : world :=
  World None None None None (λ _, quiet_call).

(** Everything loads, then every generation fails. *)
Definition world_with_failing_model : world :=
  World None None None None (λ _, failing_call).

(** Everything loads, and the model decodes to the empty string. *)
Definition world_with_silent_model : world :=
  World None None None None (λ _, silent_call).

(** The pretrained files cannot be fetched. *)
Definition world_offline : world :=
  World None None (Some (Exn OSError "Can't load tokenizer")) None
        (λ _, quiet_call).

(** A dictionary in which [import random] has been executed, for comparison
    with the program's own. *)
Definition globals_with_random : gmap string pyval :=
  <["random" := VModule "random"]>
    (<["responses" := VList responses]>
       (<["has_dialogpt" := VBool false]> ∅)).

(** ** Running the statements *)

Lemma log_all_nil st : log_all [] st = st.
Proof. destruct st; unfold log_all; simpl. by rewrite app_nil_r. Qed.

Lemma log_all_app evs evs' st :
  log_all evs' (log_all evs st) = log_all (evs ++ evs') st.
Proof. unfold log_all; simpl. by rewrite app_assoc. Qed.

Lemma issubclass_Exception c : issubclass c Exception = true.
Proof. by destruct c. Qed.

Lemma isinstance_Exception e : isinstance e Exception = true.
Proof. apply issubclass_Exception. Qed.

Lemma name_error_not_EOFError x : isinstance (name_error x) EOFError = false.
Proof. done. Qed.

Ltac exec :=
  cbv beta iota zeta delta
    [mbind M_bind mret M_ret raise out_of_fuel try_except emit external
     attempt print load_name store_name del_name set_globals log log_all
     clock input import_sys_flush globals stdin reads trace fst snd].

Ltac in_list := rewrite list_elem_of_In; simpl; tauto.

Ltac not_in_list := rewrite list_elem_of_In; simpl; intuition discriminate.

Lemma random_choice_unbound cw st :
  globals st !! "random" = None →
  random_choice_responses cw st = (Raise (name_error "random"), st).
Proof.
  intros H. destruct st as [G i n tr]. simpl in H.
  unfold random_choice_responses. exec. by rewrite H.
Qed.

Lemma generate_response_ready b cw input_text st :
  loop_ready b (globals st) →
  generate_response cw input_text st =
    ((reply b cw input_text).2, log_all (reply b cw input_text).1 st).
Proof.
  intros (Hh & _ & _ & Hr & Htm).
  unfold generate_response, reply, dialogpt.
  destruct st as [G i n tr]. simpl in Hh, Hr, Htm.
  exec. rewrite Hh. destruct b.
  - destruct (Htm eq_refl) as [Ht Hm].
    change (truthy (VBool true)) with true. exec. rewrite Ht. exec.
    destruct (tokenizer_encode cw _) as [e|ids]; exec.
    { rewrite isinstance_Exception, random_choice_unbound by done.
      unfold diagnostic. by rewrite <- !app_assoc. }
    rewrite Hm. exec.
    destruct (model_generate cw ids) as [e|out]; exec.
    { rewrite isinstance_Exception, random_choice_unbound by done.
      unfold diagnostic. by rewrite <- !app_assoc. }
    destruct (tokenizer_decode cw _) as [e|s]; exec.
    { rewrite isinstance_Exception, random_choice_unbound by done.
      unfold diagnostic. by rewrite <- !app_assoc. }
    destruct (truthy (VStr s)); exec.
    { by rewrite <- !app_assoc. }
    rewrite random_choice_unbound by done.
    rewrite isinstance_Exception. exec.
    rewrite random_choice_unbound by done.
    unfold diagnostic. by rewrite <- !app_assoc.
  - change (truthy (VBool false)) with false. exec.
    rewrite random_choice_unbound by done. by rewrite app_nil_r.
Qed.

Lemma reply_cases b cw input_text :
  (∃ s, (reply b cw input_text).2 = Ok s ∧ s ≠ "" ∧ b = true ∧
        (dialogpt cw input_text).2 = inr s) ∨
  (reply b cw input_text).2 = Raise (name_error "random").
Proof.
  unfold reply. destruct b; [|by right].
  destruct (dialogpt cw input_text) as [evs [e|s]]; [by right|].
  destruct (truthy (VStr s)) eqn:E; [left|by right].
  exists s. repeat split; try done.
  intros ->. done.
Qed.

Lemma agree_on_refl xs G : agree_on xs G G.
Proof. by intros x _. Qed.

Lemma agree_on_trans xs G1 G2 G3 :
  agree_on xs G1 G2 → agree_on xs G2 G3 → agree_on xs G1 G3.
Proof. intros H12 H23 x Hx. by rewrite H12, H23. Qed.

Lemma agree_on_sym xs G1 G2 : agree_on xs G1 G2 → agree_on xs G2 G1.
Proof. intros H x Hx. by rewrite H. Qed.

Lemma agree_on_insert xs G x v : x ∉ xs → agree_on xs (<[x:=v]> G) G.
Proof. intros Hx y Hy. apply lookup_insert_ne. by intros ->. Qed.

Lemma agree_on_delete xs G x : x ∉ xs → agree_on xs (delete x G) G.
Proof. intros Hx y Hy. apply lookup_delete_ne. by intros ->. Qed.

Lemma agree_on_names_read G G' :
  agree_on kept_names G G' → agree_on names_read G G'.
Proof. intros H x Hx. apply H. by right. Qed.

Lemma loop_ready_agree b G G' :
  agree_on kept_names G' G → loop_ready b G → loop_ready b G'.
Proof.
  intros H (H1 & H2 & H3 & H4 & H5). unfold loop_ready.
  rewrite !H; [done|in_list..].
Qed.

Lemma loop_body_eof w st :
  stdin st = [] →
  loop_body w st =
    (Ok Break,
     PyState (globals st) [] (S (reads st)) (trace st ++ [EvInput None])).
Proof.
  destruct st as [G i n tr]. simpl. intros ->.
  unfold loop_body. exec. done.
Qed.

Lemma loop_body_turn w b st line rest :
  loop_ready b (globals st) →
  stdin st = line :: rest →
  ∃ G', agree_on kept_names G' (globals st) ∧
    loop_body w st =
      (Ok Continue,
       PyState G' rest (S (reads st))
               (trace st ++ turn_trace b (calls w (S (reads st))) line)).
Proof.
  destruct st as [G i n tr]. simpl. intros Hready ->.
  assert (Hg := Hready). destruct Hg as (_ & Hg & _).
  unfold loop_body, turn_trace. exec.
  rewrite lookup_insert_ne; [|discriminate]. rewrite Hg. exec.
  destruct (decide _) as [_|]; [|congruence]. exec.
  rewrite (generate_response_ready b);
    [|simpl; eapply loop_ready_agree; [|exact Hready];
      apply agree_on_insert; not_in_list].
  pose proof (reply_cases b (calls w (S n)) line) as Hcases.
  destruct (reply b (calls w (S n)) line) as [evs r]. simpl in Hcases.
  destruct Hcases as [(s & -> & _)| ->]; exec.
  - eexists. split; [|f_equal; f_equal].
    + do 3 (eapply agree_on_trans; [apply agree_on_insert; not_in_list|]).
      apply agree_on_refl.
    + simpl. by rewrite <- !app_assoc.
  - rewrite name_error_not_EOFError, isinstance_Exception. exec.
    eexists. split; [|f_equal; f_equal].
    + eapply agree_on_trans; [apply agree_on_delete; not_in_list|].
      do 3 (eapply agree_on_trans; [apply agree_on_insert; not_in_list|]).
      apply agree_on_refl.
    + simpl. by rewrite <- !app_assoc.
Qed.

Lemma main_loop_spec w b fuel st :
  loop_ready b (globals st) →
  ∃ G', agree_on kept_names G' (globals st) ∧
    main_loop w fuel st =
      if decide (fuel ≤ length (stdin st)) then
        (OutOfFuel,
         PyState G' (drop fuel (stdin st)) (reads st + fuel)
                 (trace st ++ loop_trace b w (reads st) (take fuel (stdin st))))
      else
        (Ok (),
         PyState G' [] (S (reads st + length (stdin st)))
                 (trace st ++ loop_trace b w (reads st) (stdin st)
                           ++ [EvInput None])).
Proof.
  revert st. induction fuel as [|fuel IH]; intros st Hready.
  - exists (globals st). split; [apply agree_on_refl|].
    destruct st as [G i n tr]. simpl.
    by rewrite Nat.add_0_r, app_nil_r.
  - destruct (stdin st) as [|line rest] eqn:Hin.
    + exists (globals st). split; [apply agree_on_refl|].
      cbn [main_loop]. unfold mbind, M_bind.
      rewrite loop_body_eof by done. simpl.
      by rewrite Nat.add_0_r.
    + destruct (loop_body_turn w b st line rest Hready Hin)
        as (G1 & Hagree1 & Hturn).
      destruct (IH (PyState G1 rest (S (reads st))
                      (trace st ++ turn_trace b (calls w (S (reads st))) line)))
        as (G' & Hagree' & Hloop).
      { simpl. by eapply loop_ready_agree. }
      exists G'. split; [by eapply agree_on_trans|].
      cbn [main_loop]. unfold mbind, M_bind.
      rewrite Hturn, Hloop. cbn [stdin reads trace length].
      destruct (decide (fuel ≤ length rest)),
               (decide (S fuel ≤ S (length rest))); try lia.
      * cbn [drop take loop_trace].
        by rewrite <- app_assoc, Nat.add_succ_r.
      * cbn [loop_trace]. rewrite <- !app_assoc.
        by rewrite Nat.add_succ_r.
Qed.

Ltac lookups :=
  repeat first
    [ rewrite lookup_insert_eq
    | rewrite lookup_insert_ne by discriminate
    | rewrite lookup_empty ].

Ltac world_proj :=
  cbn [import_transformers import_torch tokenizer_from_pretrained
       model_from_pretrained].

Lemma run_aborted w lines fuel e :
  startup_failure w = Some e →
  isinstance e ImportError = false →
  ∃ G, G !! "has_dialogpt" = None ∧ G !! "responses" = None ∧
    run w lines fuel = (Raise e, PyState G lines 0 (startup_trace w)).
Proof.
  destruct w as [[e1|] [e2|] [e3|] [e4|] c];
    unfold startup_failure; simpl; intros [= ->] Hi;
    unfold run, program, startup, initial, startup_trace; world_proj;
    exec; lookups; exec; rewrite Hi;
    eexists; (split; [|split; [|reflexivity]]); by lookups.
Qed.

Lemma run_started w lines fuel :
  (∀ e, startup_failure w = Some e → isinstance e ImportError = true) →
  loop_ready (model_available w) (dictionary w) ∧
  run w lines fuel =
    main_loop w fuel
      (PyState (dictionary w) lines 0 (startup_trace w ++ banner w)).
Proof.
  destruct w as [[e1|] [e2|] [e3|] [e4|] c];
    unfold startup_failure, model_available, banner, dictionary; simpl;
    intros Hi; try rewrite (Hi _ eq_refl);
    unfold run, program, startup, initial, startup_trace; world_proj;
    exec; lookups; exec;
    try rewrite (Hi _ eq_refl); exec;
    (split; [|reflexivity]);
    unfold loop_ready; lookups; repeat split; try done; discriminate.
Qed.

Lemma run_spec w lines fuel :
  (∃ e G, startup_failure w = Some e ∧ isinstance e ImportError = false ∧
     G !! "has_dialogpt" = None ∧ G !! "responses" = None ∧
     run w lines fuel = (Raise e, PyState G lines 0 (startup_trace w))) ∨
  ((∀ e, startup_failure w = Some e → isinstance e ImportError = true) ∧
   ∃ st,
     run w lines fuel =
       (if decide (fuel ≤ length lines) then OutOfFuel else Ok (), st) ∧
     loop_ready (model_available w) (globals st) ∧
     agree_on kept_names (globals st) (dictionary w) ∧
     stdin st = drop fuel lines ∧
     reads st = (if decide (fuel ≤ length lines) then fuel
                 else S (length lines)) ∧
     trace st =
       startup_trace w ++ banner w ++
       loop_trace (model_available w) w 0 (take fuel lines) ++
       (if decide (fuel ≤ length lines) then [] else [EvInput None])).
Proof.
  destruct (startup_failure w) as [e|] eqn:Hf;
    [destruct (isinstance e ImportError) eqn:Hi|].
  2:{ left. destruct (run_aborted w lines fuel e Hf Hi) as (G & ? & ? & ?).
      by exists e, G. }
  all: right; split; [by intros ? [= <-]|].
  all: destruct (run_started w lines fuel) as (Hready & ->);
    [rewrite Hf; by intros ? [= <-]|].
  all: destruct (main_loop_spec w _ fuel
         (PyState (dictionary w) lines 0 (startup_trace w ++ banner w)) Hready)
         as (G & HG & ->); cbn [globals stdin reads trace] in *.
  all: destruct (decide (fuel ≤ length lines)); eexists;
    (split; [reflexivity|]); cbn [globals stdin reads trace];
    (split; [by eapply loop_ready_agree|]); (split; [exact HG|]).
  all: rewrite <- ?app_assoc, ?app_nil_r, ?drop_ge, ?take_ge by lia; done.
Qed.

(** The state in which turn [i] starts. *)
Lemma run_out_of_fuel w lines i st :
  run w lines i = (OutOfFuel, st) →
  i ≤ length lines ∧
  loop_ready (model_available w) (globals st) ∧
  agree_on kept_names (globals st) (dictionary w) ∧
  stdin st = drop i lines ∧ reads st = i ∧
  trace st = startup_trace w ++ banner w ++
             loop_trace (model_available w) w 0 (take i lines).
Proof.
  intros Hrun.
  destruct (run_spec w lines i)
    as [(e & G & _ & _ & _ & _ & H)|(_ & st' & H & HG & Ha & Hin & Hn & Htr)];
    rewrite H in Hrun; [done|].
  destruct (decide (i ≤ length lines)); [|done].
  injection Hrun as <-. by rewrite app_nil_r in Htr.
Qed.

Lemma run_reaches_turn w lines i :
  (∀ e, startup_failure w = Some e → isinstance e ImportError = true) →
  i ≤ length lines →
  ∃ st, run w lines i = (OutOfFuel, st).
Proof.
  intros Hs Hi.
  destruct (run_spec w lines i)
    as [(e & G & Hf & Hn & _)|(_ & st & H & _)].
  - rewrite (Hs e Hf) in Hn. done.
  - rewrite H. destruct (decide (i ≤ length lines)); [|done]. by eexists.
Qed.

(** ** Facts about the logs *)

Lemma printed_app evs evs' : printed (evs ++ evs') = printed evs ++ printed evs'.
Proof. apply omap_app. Qed.

Lemma printed_startup_trace w : printed (startup_trace w) = [].
Proof. by destruct w as [[?|] [?|] [?|] [?|] ?]. Qed.

Lemma printed_dialogpt cw input_text : printed (dialogpt cw input_text).1 = [].
Proof.
  unfold dialogpt.
  destruct (tokenizer_encode cw _); [done|].
  destruct (model_generate cw _); done.
Qed.

Lemma loop_trace_fallback w n lines :
  loop_trace false w n lines = concat (failed_turn <$> lines).
Proof.
  revert n. induction lines as [|line rest IH]; intros n; [done|].
  cbn [loop_trace fmap list_fmap concat]. by rewrite IH.
Qed.

Lemma printed_failed_turns lines :
  printed (concat (failed_turn <$> lines)) =
  replicate (length lines) "Error: name 'random' is not defined".
Proof.
  induction lines as [|line rest IH]; [done|].
  cbn [fmap list_fmap concat length replicate].
  rewrite printed_app, IH. done.
Qed.

(** ** Start-up *)

(** C10.  An exception raised inside the start-up [try] block puts the
    program in fallback mode ([has_dialogpt] is [False]) exactly when it is
    an instance of [ImportError].  Any other exception leaves the block
    uncaught: the run ends with that exception, [has_dialogpt] was never
    bound, no line has been read and nothing has been written.  Without an
    exception [has_dialogpt] is [True]. *)
Theorem fallback_only_on_ImportError (w : world) (lines : list string)
    (fuel : nat) :
  let r := (run w lines fuel).1 in
  let st := (run w lines fuel).2 in
  match startup_failure w with
  | None => globals st !! "has_dialogpt" = Some (VBool true)
  | Some e =>
      if isinstance e ImportError
      then globals st !! "has_dialogpt" = Some (VBool false)
      else r = Raise e ∧ globals st !! "has_dialogpt" = None ∧
           stdin st = lines ∧ reads st = 0 ∧ stdout st = [] ∧
           Forall (λ ev, is_input ev = false) (trace st)
  end.
Proof.
  intros r st. subst r st.
  destruct (run_spec w lines fuel)
    as [(e & G & Hf & Hi & Hh & _ & ->)|(Hs & st & -> & HG & _)].
  - rewrite Hf, Hi. simpl. repeat split; try done.
    + unfold stdout. simpl. apply printed_startup_trace.
    + by destruct w as [[?|] [?|] [?|] [?|] ?]; repeat constructor.
  - simpl. destruct HG as (Hh & _). unfold model_available in Hh.
    destruct (startup_failure w) as [e|] eqn:Hf.
    + rewrite (Hs e eq_refl). by rewrite Hh.
    + by rewrite Hh.
Qed.

(** C5.  In fallback mode ([has_dialogpt] is [False]) the name [random] is
    unbound, since no statement of the script binds it: every call of
    [generate_response] raises [NameError] and logs nothing, and for every
    line read the loop's [except Exception] handler prints
    ["Error: name 'random' is not defined"], never a canned response.  This
    holds after any number [fuel] of turns. *)
Theorem fallback_prints_NameError (w : world) (lines : list string)
    (fuel : nat) :
  let st := (run w lines fuel).2 in
  globals st !! "has_dialogpt" = Some (VBool false) →
  globals st !! "random" = None ∧
  (∀ cw input_text,
     generate_response cw input_text st = (Raise (name_error "random"), st)) ∧
  trace st =
    startup_trace w ++
    [EvPrint "ChatBot initialized with basic response system"] ++
    concat (failed_turn <$> take fuel lines) ++
    (if decide (fuel ≤ length lines) then [] else [EvInput None]) ∧
  stdout st =
    "ChatBot initialized with basic response system" ::
    replicate (fuel `min` length lines) "Error: name 'random' is not defined" ∧
  Forall (λ s, s ∉ responses) (stdout st).
Proof.
  intros st. subst st.
  destruct (run_spec w lines fuel)
    as [(e & G & Hf & Hi & Hh & _ & ->)|(Hs & st & -> & HG & _ & _ & _ & Htr)];
    cbn [snd globals]; intros Hfalse; [congruence|].
  assert (model_available w = false) as Hb.
  { destruct HG as (Hh & _). rewrite Hh in Hfalse. congruence. }
  rewrite Hb in HG, Htr.
  assert (banner w = [EvPrint "ChatBot initialized with basic response system"])
    as Hbanner.
  { unfold banner. unfold model_available in Hb.
    destruct (startup_failure w) as [e|]; [by rewrite (Hs e eq_refl)|done]. }
  rewrite Hbanner, loop_trace_fallback in Htr.
  assert (stdout st =
    "ChatBot initialized with basic response system" ::
    replicate (fuel `min` length lines) "Error: name 'random' is not defined")
    as Hout.
  { unfold stdout. rewrite Htr, !printed_app, printed_startup_trace.
    rewrite printed_failed_turns, length_take.
    destruct (decide _); simpl; by rewrite app_nil_r. }
  split; [apply HG|]. split; [|split; [exact Htr|split; [exact Hout|]]].
  - intros cw input_text.
    rewrite (generate_response_ready false) by done. simpl.
    by rewrite log_all_nil.
  - rewrite Hout. constructor.
    + rewrite list_elem_of_In. simpl. intuition discriminate.
    + apply Forall_replicate. rewrite list_elem_of_In. simpl.
      intuition discriminate.
Qed.

Lemma fallback_prints_NameError_witness :
  globals (run world_without_transformers ["hello"; "how are you?"] 3).2
    !! "has_dialogpt" = Some (VBool false) ∧
  stdout (run world_without_transformers ["hello"; "how are you?"] 3).2 =
    ["ChatBot initialized with basic response system";
     "Error: name 'random' is not defined";
     "Error: name 'random' is not defined"].
Proof.
  assert (globals (run world_without_transformers
                     ["hello"; "how are you?"] 3).2
            !! "has_dialogpt" = Some (VBool false)) as H
    by (vm_compute; reflexivity).
  split; [exact H|].
  apply (fallback_prints_NameError world_without_transformers
           ["hello"; "how are you?"] 3 H).
Defined.

(** ** The loop *)

Lemma main_loop_more_fuel w fuel fuel' st :
  fuel ≤ fuel' →
  (main_loop w fuel st).1 ≠ OutOfFuel →
  main_loop w fuel' st = main_loop w fuel st.
Proof.
  revert fuel' st. induction fuel as [|fuel IH]; intros fuel' st Hle Hres.
  - done.
  - destruct fuel' as [|fuel']; [lia|].
    cbn [main_loop] in *. unfold mbind, M_bind in *.
    destruct (loop_body w st) as [[[|]|e|] st1]; try done.
    apply IH; [lia|done].
Qed.

Lemma run_more_fuel w lines fuel fuel' :
  fuel ≤ fuel' →
  (run w lines fuel).1 ≠ OutOfFuel →
  run w lines fuel' = run w lines fuel.
Proof.
  intros Hle. unfold run, program, mbind, M_bind.
  destruct (startup w (initial lines)) as [[[]|e|] st0]; try done.
  unfold store_name. apply main_loop_more_fuel, Hle.
Qed.

(** C9.  For every finite input the program terminates.  With one turn of
    the loop per line and one more for the end of input the run is
    complete: its result is not [OutOfFuel] and no larger number of turns
    changes it.  If the start-up block did not abort, the loop ran, and
    then: the run ends normally, every line has been consumed, [input()]
    has been called once per line and once more, the last event is the
    read that met the end of input (the [EOFError] branch), and after any
    smaller number of turns the loop is still running, having consumed
    exactly one line per turn. *)
Theorem main_loop_terminates_at_EOF (w : world) (lines : list string) :
  let full := run w lines (S (length lines)) in
  full.1 ≠ OutOfFuel ∧
  (∀ fuel, length lines < fuel → run w lines fuel = full) ∧
  ((∃ e, startup_failure w = Some e ∧ isinstance e ImportError = false ∧
         full.1 = Raise e ∧ reads full.2 = 0) ∨
   (full.1 = Ok () ∧
    stdin full.2 = [] ∧
    reads full.2 = S (length lines) ∧
    last (trace full.2) = Some (EvInput None) ∧
    ∀ fuel, fuel ≤ length lines →
      (run w lines fuel).1 = OutOfFuel ∧
      stdin (run w lines fuel).2 = drop fuel lines ∧
      reads (run w lines fuel).2 = fuel)).
Proof.
  intros full. subst full.
  assert ((run w lines (S (length lines))).1 ≠ OutOfFuel) as Hfull.
  { destruct (run_spec w lines (S (length lines)))
      as [(e & G & _ & _ & _ & _ & ->)|(_ & st & -> & _)]; [done|].
    destruct (decide _); [lia|done]. }
  split; [exact Hfull|]. split.
  { intros fuel Hlt. apply run_more_fuel; [lia|exact Hfull]. }
  destruct (run_spec w lines (S (length lines)))
    as [(e & G & Hf & Hi & _ & _ & ->)|(Hs & st & -> & _ & _ & Hin & Hn & Htr)].
  - left. by exists e.
  - right. destruct (decide (S (length lines) ≤ length lines)); [lia|].
    cbn [fst snd]. split; [done|].
    split; [by rewrite Hin, drop_ge by lia|].
    split; [exact Hn|].
    split; [by rewrite Htr, !app_assoc, last_snoc|].
    intros fuel Hle.
    destruct (run_spec w lines fuel)
      as [(e & G & Hf & Hi & _)|(_ & st' & -> & _ & _ & Hin' & Hn' & _)].
    + rewrite (Hs e Hf) in Hi. done.
    + destruct (decide (fuel ≤ length lines)); [|lia]. done.
Qed.

Lemma dialogpt_no_load cw input_text :
  Forall (λ ev, is_load ev = false) (dialogpt cw input_text).1.
Proof.
  unfold dialogpt.
  destruct (tokenizer_encode cw _); [by repeat constructor|].
  destruct (model_generate cw _); by repeat constructor.
Qed.

Lemma turn_trace_no_load b cw line :
  Forall (λ ev, is_load ev = false) (turn_trace b cw line).
Proof.
  unfold turn_trace, reply. do 2 (constructor; [done|]).
  pose proof (dialogpt_no_load cw line) as Hd.
  destruct b; [|by repeat constructor].
  destruct (dialogpt cw line) as [evs [e|s]]; cbn [fst] in Hd.
  - cbn [fst snd answer]. rewrite !Forall_app. by repeat constructor.
  - destruct (truthy (VStr s)); cbn [fst snd answer];
      rewrite !Forall_app; by repeat constructor.
Qed.

Lemma loop_trace_no_load b w n lines :
  Forall (λ ev, is_load ev = false) (loop_trace b w n lines).
Proof.
  revert n. induction lines as [|line rest IH]; intros n; [constructor|].
  cbn [loop_trace]. rewrite Forall_app. split; [apply turn_trace_no_load|apply IH].
Qed.

Lemma banner_no_load w : Forall (λ ev, is_load ev = false) (banner w).
Proof.
  unfold banner. destruct (startup_failure w) as [e|]; [|by repeat constructor].
  destruct (isinstance e ImportError); by repeat constructor.
Qed.

Lemma startup_trace_no_input w :
  Forall (λ ev, is_input ev = false) (startup_trace w).
Proof. by destruct w as [[?|] [?|] [?|] [?|] ?]; repeat constructor. Qed.

Lemma startup_trace_loads w :
  length (filter (λ ev, loads_of "AutoTokenizer" ev = true)
                 (startup_trace w)) ≤ 1 ∧
  length (filter (λ ev, loads_of "AutoModelForCausalLM" ev = true)
                 (startup_trace w)) ≤ 1 ∧
  length (filter (λ ev, is_load ev = true) (startup_trace w)) ≤ 2.
Proof. by destruct w as [[?|] [?|] [?|] [?|] ?]; vm_compute; lia. Qed.

Lemma filter_none {A} (P : A → Prop) `{∀ x, Decision (P x)} (l : list A) :
  Forall (λ x, ¬ P x) l → filter P l = [].
Proof.
  induction 1 as [|x l Hx Hl IH]; [done|].
  by rewrite filter_cons_False.
Qed.

Lemma loads_of_is_load cls ev : loads_of cls ev = true → is_load ev = true.
Proof. by destruct ev. Qed.

(** Of two lists laid end to end, what occurs only in the first comes
    before what occurs only in the second. *)
Lemma ordered_app {A} (p q : A → bool) (pre post : list A) i j x y :
  Forall (λ a, q a = false) pre →
  Forall (λ a, p a = false) post →
  (pre ++ post) !! i = Some x → p x = true →
  (pre ++ post) !! j = Some y → q y = true →
  i < j.
Proof.
  intros Hpre Hpost Hi Hp Hj Hq.
  apply lookup_app_Some in Hi as [Hi|[Hi1 Hi2]]; last first.
  { rewrite Forall_lookup in Hpost. specialize (Hpost _ _ Hi2). congruence. }
  apply lookup_app_Some in Hj as [Hj|[Hj1 Hj2]].
  { rewrite Forall_lookup in Hpre. specialize (Hpre _ _ Hj). congruence. }
  apply lookup_lt_Some in Hi. lia.
Qed.

(** The log of any run: the start-up calls, then events that load nothing. *)
Lemma run_trace_split w lines fuel :
  ∃ post, trace (run w lines fuel).2 = startup_trace w ++ post ∧
          Forall (λ ev, is_load ev = false) post.
Proof.
  destruct (run_spec w lines fuel)
    as [(e & G & _ & _ & _ & _ & ->)|(_ & st & -> & _ & _ & _ & _ & Htr)].
  - exists []. simpl. by rewrite app_nil_r.
  - eexists. split; [exact Htr|].
    rewrite !Forall_app.
    split; [apply banner_no_load|]. split; [apply loop_trace_no_load|].
    destruct (decide _); by repeat constructor.
Qed.

(** C8.  In the log of any run the tokenizer is loaded at most once and the
    model is loaded at most once, nothing else is loaded, and every load
    comes before every call of [input()]: the loads belong to the start-up
    block, and no turn of the loop loads anything. *)
Theorem model_loaded_once_at_startup (w : world) (lines : list string)
    (fuel : nat) :
  let tr := trace (run w lines fuel).2 in
  length (filter (λ ev, loads_of "AutoTokenizer" ev = true) tr) ≤ 1 ∧
  length (filter (λ ev, loads_of "AutoModelForCausalLM" ev = true) tr) ≤ 1 ∧
  length (filter (λ ev, is_load ev = true) tr) ≤ 2 ∧
  ∀ i j ev ev',
    tr !! i = Some ev → is_load ev = true →
    tr !! j = Some ev' → is_input ev' = true →
    i < j.
Proof.
  intros tr. subst tr.
  destruct (run_trace_split w lines fuel) as (post & -> & Hpost).
  assert (∀ cls, filter (λ ev, loads_of cls ev = true) post = []) as Hnone.
  { intros cls. apply filter_none. eapply Forall_impl; [exact Hpost|].
    intros ev Hev Hl. apply loads_of_is_load in Hl. congruence. }
  assert (filter (λ ev, is_load ev = true) post = []) as Hnone'.
  { apply filter_none. eapply Forall_impl; [exact Hpost|].
    intros ev Hev Hl. congruence. }
  rewrite !filter_app, !Hnone, Hnone', !app_nil_r.
  destruct (startup_trace_loads w) as (Ht & Hm & Hall).
  do 3 (split; [assumption|]).
  - intros i j ev ev' Hi Hl Hj Hin.
    eapply (ordered_app is_load is_input); eauto using startup_trace_no_input.
Qed.

(** ** What a statement reads *)

Section reads_only.
Context (xs : list string).

Lemma reads_only_ret {A} (a : A) : reads_only xs (mret a).
Proof. intros st st2 _. exists (Ok a), []. by rewrite !log_all_nil. Qed.

Lemma reads_only_raise {A} (e : exn) : reads_only xs (raise e : M A).
Proof. intros st st2 _. exists (Raise e), []. by rewrite !log_all_nil. Qed.

Lemma reads_only_emit (ev : event) : reads_only xs (emit ev).
Proof. intros st st2 _. by exists (Ok ()), [ev]. Qed.

Lemma reads_only_load (x : string) : x ∈ xs → reads_only xs (load_name x).
Proof.
  intros Hx st st2 Hagree. unfold load_name.
  rewrite <- (Hagree x Hx).
  destruct (globals st !! x) as [v|].
  - exists (Ok v), []. by rewrite !log_all_nil.
  - exists (Raise (name_error x)), []. by rewrite !log_all_nil.
Qed.

Lemma reads_only_bind {A B} (m : M A) (f : A → M B) :
  reads_only xs m → (∀ a, reads_only xs (f a)) → reads_only xs (m ≫= f).
Proof.
  intros Hm Hf st st2 Hagree.
  destruct (Hm st st2 Hagree) as (r & evs & E1 & E2).
  unfold mbind, M_bind. rewrite E1, E2.
  destruct r as [a|e|]; [|by exists (Raise e), evs|by exists OutOfFuel, evs].
  destruct (Hf a (log_all evs st) (log_all evs st2) Hagree)
    as (r' & evs' & E1' & E2').
  exists r', (evs ++ evs'). by rewrite E1', E2', !log_all_app.
Qed.

Lemma reads_only_try {A} (body : M A) (handler : exn → M A) :
  reads_only xs body → (∀ e, reads_only xs (handler e)) →
  reads_only xs (try_except body handler).
Proof.
  intros Hm Hh st st2 Hagree.
  destruct (Hm st st2 Hagree) as (r & evs & E1 & E2).
  unfold try_except. rewrite E1, E2.
  destruct r as [a|e|]; [by exists (Ok a), evs| |by exists OutOfFuel, evs].
  destruct (Hh e (log_all evs st) (log_all evs st2) Hagree)
    as (r' & evs' & E1' & E2').
  exists r', (evs ++ evs'). by rewrite E1', E2', !log_all_app.
Qed.

Lemma reads_only_external {A} (ev : event) (r : exn + A) :
  reads_only xs (external ev r).
Proof.
  unfold external. apply reads_only_bind; [apply reads_only_emit|].
  intros _. destruct r; [apply reads_only_raise|apply reads_only_ret].
Qed.
End reads_only.

Ltac reads_only_step :=
  first
    [ apply reads_only_ret
    | apply reads_only_raise
    | apply reads_only_external
    | apply reads_only_emit
    | apply reads_only_load; in_list
    | apply reads_only_bind; [|intros ?]
    | apply reads_only_try; [|intros ?]
    | match goal with
      | |- reads_only _ (if ?c then _ else _) => destruct c
      | |- reads_only _ (match ?c with _ => _ end) => destruct c
      end ].

Lemma random_choice_reads_only cw :
  reads_only names_read (random_choice_responses cw).
Proof. unfold random_choice_responses. repeat reads_only_step. Qed.

Lemma generate_response_reads_only cw input_text :
  reads_only names_read (generate_response cw input_text).
Proof.
  unfold generate_response, print. cbv zeta.
  repeat first [apply random_choice_reads_only | reads_only_step].
Qed.

(** ** What a statement keeps *)

Section preserves.
Context (I : gmap string pyval → Prop).

Lemma preserves_ret {A} (a : A) (Q : A → Prop) :
  Q a → preserves I (mret a) Q.
Proof. intros Ha st HI. split; [done|]. by intros ? [= <-]. Qed.

Lemma preserves_raise {A} (e : exn) (Q : A → Prop) :
  preserves I (raise e) Q.
Proof. intros st HI. by split. Qed.

Lemma preserves_emit (ev : event) : preserves I (emit ev) (λ _, True).
Proof. intros st HI. by split. Qed.

Lemma preserves_load (x : string) :
  preserves I (load_name x) (λ v, ∃ G, I G ∧ G !! x = Some v).
Proof.
  intros st HI. unfold load_name.
  destruct (globals st !! x) as [v|] eqn:E; (split; [done|]); [|done].
  intros ? [= <-]. by exists (globals st).
Qed.

Lemma preserves_store (x : string) (v : pyval) :
  (∀ G, I G → I (<[x:=v]> G)) →
  preserves I (store_name x v) (λ _, True).
Proof. intros Hx st HI. split; [by apply Hx|done]. Qed.

Lemma preserves_del (x : string) :
  (∀ G, I G → I (delete x G)) →
  preserves I (del_name x) (λ _, True).
Proof. intros Hx st HI. split; [by apply Hx|done]. Qed.

Lemma preserves_input : preserves I input (λ _, True).
Proof. intros st HI. unfold input. by destruct (stdin st). Qed.

Lemma preserves_clock : preserves I clock (λ _, True).
Proof. intros st HI. by split. Qed.

Lemma preserves_bind {A B} (m : M A) (f : A → M B) P Q :
  preserves I m P → (∀ a, P a → preserves I (f a) Q) →
  preserves I (m ≫= f) Q.
Proof.
  intros Hm Hf st HI. destruct (Hm st HI) as [HI' HP].
  unfold mbind, M_bind. destruct (m st) as [[a|e|] st']; [|by split..].
  apply Hf; [by apply HP|done].
Qed.

Lemma preserves_try {A} (body : M A) (handler : exn → M A) Q :
  preserves I body Q → (∀ e, preserves I (handler e) Q) →
  preserves I (try_except body handler) Q.
Proof.
  intros Hm Hh st HI. destruct (Hm st HI) as [HI' HQ].
  unfold try_except. destruct (body st) as [[a|e|] st']; [done| |done].
  by apply Hh.
Qed.

Lemma preserves_external {A} (ev : event) (r : exn + A) :
  preserves I (external ev r) (λ a, r = inr a).
Proof.
  unfold external. eapply preserves_bind; [apply preserves_emit|].
  intros _ _. destruct r; [apply preserves_raise|by apply preserves_ret].
Qed.

Lemma preserves_weaken {A} (m : M A) (P Q : A → Prop) :
  preserves I m P → (∀ a, P a → Q a) → preserves I m Q.
Proof.
  intros Hm HPQ st HI. destruct (Hm st HI) as [HI' HP].
  split; [done|]. intros a Ha. by apply HPQ, HP.
Qed.
End preserves.

Lemma responses_intact_insert G x v :
  x ≠ "responses" → responses_intact G → responses_intact (<[x:=v]> G).
Proof. intros Hx HG. unfold responses_intact. by rewrite lookup_insert_ne. Qed.

Lemma responses_intact_delete G x :
  x ≠ "responses" → responses_intact G → responses_intact (delete x G).
Proof. intros Hx HG. unfold responses_intact. by rewrite lookup_delete_ne. Qed.

Lemma random_choice_member cw :
  preserves responses_intact (random_choice_responses cw) (λ s, s ∈ responses).
Proof.
  unfold random_choice_responses.
  eapply preserves_bind; [apply preserves_load|]. intros r _.
  destruct (decide _); [|apply preserves_raise].
  eapply preserves_bind; [apply preserves_load|].
  intros l (G & HG & Hl). unfold responses_intact in HG.
  rewrite HG in Hl. injection Hl as <-.
  destruct (responses !! _) as [s|] eqn:E; [|apply preserves_raise].
  apply preserves_ret. by eapply list_elem_of_lookup_2.
Qed.

Lemma generate_response_member cw input_text :
  preserves responses_intact (generate_response cw input_text)
    (λ s, s ∈ responses ∨
          ∃ ids, tokenizer_decode cw ids = inr s ∧ s ≠ "").
Proof.
  assert (preserves responses_intact (random_choice_responses cw)
            (λ s, s ∈ responses ∨
                  ∃ ids, tokenizer_decode cw ids = inr s ∧ s ≠ "")) as Hc.
  { eapply preserves_weaken; [apply random_choice_member|]. by left. }
  unfold generate_response. cbv zeta.
  eapply preserves_bind; [apply preserves_load|]. intros h _.
  destruct (truthy h); [|exact Hc].
  apply preserves_try.
  - eapply preserves_bind; [apply preserves_load|]. intros _ _.
    eapply preserves_bind; [apply preserves_external|]. intros input_ids _.
    eapply preserves_bind; [apply preserves_load|]. intros _ _.
    eapply preserves_bind; [apply preserves_external|]. intros output _.
    eapply preserves_bind; [apply preserves_external|]. intros response Hr.
    destruct (truthy (VStr response)) eqn:Ht; [|exact Hc].
    apply preserves_ret. right. eexists. split; [exact Hr|].
    intros ->. done.
  - intros e. destruct (isinstance e Exception); [|apply preserves_raise].
    eapply preserves_bind; [apply preserves_emit|]. intros _ _. exact Hc.
Qed.

Lemma loop_body_keeps_responses w :
  preserves responses_intact (loop_body w) (λ _, True).
Proof.
  unfold loop_body, import_sys_flush, print.
  apply preserves_try.
  - eapply preserves_bind; [apply preserves_input|]. intros line _.
    eapply preserves_bind;
      [apply preserves_store; intros G; by apply responses_intact_insert|].
    intros _ _.
    eapply preserves_bind; [apply preserves_load|]. intros f _.
    eapply preserves_bind with (P := λ _, True).
    { destruct (decide _); [|apply preserves_raise].
      eapply preserves_bind; [apply preserves_clock|]. intros n _.
      eapply preserves_bind; [apply preserves_emit|]. intros _ _.
      eapply preserves_weaken; [apply generate_response_member|done]. }
    intros response _.
    eapply preserves_bind;
      [apply preserves_store; intros G; by apply responses_intact_insert|].
    intros _ _.
    eapply preserves_bind; [apply preserves_emit|]. intros _ _.
    eapply preserves_bind with (P := λ _, True).
    { eapply preserves_bind;
        [apply preserves_store; intros G; by apply responses_intact_insert|].
      intros _ _. apply preserves_emit. }
    intros _ _. by apply preserves_ret.
  - intros e. destruct (isinstance e EOFError); [by apply preserves_ret|].
    destruct (isinstance e Exception); [|apply preserves_raise].
    eapply preserves_bind;
      [apply preserves_store; intros G; by apply responses_intact_insert|].
    intros _ _.
    eapply preserves_bind; [apply preserves_emit|]. intros _ _.
    eapply preserves_bind with (P := λ _, True).
    { eapply preserves_bind;
        [apply preserves_store; intros G; by apply responses_intact_insert|].
      intros _ _. apply preserves_emit. }
    intros _ _.
    eapply preserves_bind;
      [apply preserves_del; intros G; by apply responses_intact_delete|].
    intros _ _. by apply preserves_ret.
Qed.

(** ** The canned responses *)

(** C6.  The list of canned responses is fixed.  After any number of turns
    of any run the name [responses] is bound to the list of lines 32-53
    (unless the start-up block aborted the program before the list was
    built); from any state where it is so bound, neither a turn of the loop
    nor a call of [generate_response] changes the binding; and whatever
    [generate_response] returns is a member of that list or else the
    non-empty text the tokenizer decoded. *)
Theorem responses_fixed (w : world) (lines : list string) (fuel : nat)
    (cw : call_world) (input_text : string) (st : pystate) :
  responses_intact (globals st) →
  ((∃ e, (run w lines fuel).1 = Raise e ∧ reads (run w lines fuel).2 = 0) ∨
   responses_intact (globals (run w lines fuel).2)) ∧
  responses_intact (globals (loop_body w st).2) ∧
  responses_intact (globals (generate_response cw input_text st).2) ∧
  ∀ s, (generate_response cw input_text st).1 = Ok s →
       s ∈ responses ∨ ∃ ids, tokenizer_decode cw ids = inr s ∧ s ≠ "".
Proof.
  intros Hst. split; [|split].
  - destruct (run_spec w lines fuel)
      as [(e & G & _ & _ & _ & _ & ->)|(_ & st' & -> & HG & _)].
    + left. by exists e.
    + right. apply HG.
  - by apply loop_body_keeps_responses.
  - by apply generate_response_member.
Qed.

Lemma responses_fixed_witness :
  responses_intact globals_with_random ∧
  (generate_response quiet_call "hello"
     (PyState globals_with_random [] 0 [])).1 = Ok "Hello there!" ∧
  "Hello there!" ∈ responses.
Proof.
  assert (responses_intact globals_with_random) as H by reflexivity.
  split; [exact H|]. split; [reflexivity|].
  destruct (responses_fixed world_with_model ["hello"] 2 quiet_call "hello"
              (PyState globals_with_random [] 0 []) H)
    as (_ & _ & _ & Hmember).
  destruct (Hmember "Hello there!" eq_refl) as [Hin|(ids & Hd & _)].
  - exact Hin.
  - discriminate Hd.
Defined.

(** ** No conversation history *)

(** C7.  Take two runs in the same world whose inputs have the same line
    [x] at position [i], whatever the earlier lines were, and let [st1] and
    [st2] be the states in which turn [i] starts.  The two dictionaries
    agree on every name [generate_response] reads; [generate_response]
    depends on the dictionary through those names only and writes nothing
    but the log; and the turn is the same in both runs: it reads [x], calls
    [generate_response] with [x], and logs the same events after it. *)
Theorem no_conversation_history (w : world) (lines1 lines2 : list string)
    (i : nat) (x : string) (st1 st2 : pystate) :
  lines1 !! i = Some x →
  lines2 !! i = Some x →
  run w lines1 i = (OutOfFuel, st1) →
  run w lines2 i = (OutOfFuel, st2) →
  agree_on names_read (globals st1) (globals st2) ∧
  (∀ cw y, reads_only names_read (generate_response cw y)) ∧
  ∃ evs G1 G2,
    loop_body w st1 =
      (Ok Continue,
       PyState G1 (drop (S i) lines1) (S i)
         (trace st1 ++
          EvInput (Some x) :: EvCall "generate_response" x :: evs)) ∧
    loop_body w st2 =
      (Ok Continue,
       PyState G2 (drop (S i) lines2) (S i)
         (trace st2 ++
          EvInput (Some x) :: EvCall "generate_response" x :: evs)).
Proof.
  intros Hx1 Hx2 Hrun1 Hrun2.
  apply run_out_of_fuel in Hrun1 as (_ & Hready1 & Hagree1 & Hin1 & Hn1 & _).
  apply run_out_of_fuel in Hrun2 as (_ & Hready2 & Hagree2 & Hin2 & Hn2 & _).
  rewrite (drop_S _ _ _ Hx1) in Hin1. rewrite (drop_S _ _ _ Hx2) in Hin2.
  split; [|split].
  - apply agree_on_names_read.
    eapply agree_on_trans; [exact Hagree1|by apply agree_on_sym].
  - apply generate_response_reads_only.
  - destruct (loop_body_turn w _ st1 _ _ Hready1 Hin1) as (G1 & _ & ->).
    destruct (loop_body_turn w _ st2 _ _ Hready2 Hin2) as (G2 & _ & ->).
    rewrite Hn1, Hn2. unfold turn_trace. by eexists _, G1, G2.
Qed.

Lemma no_conversation_history_witness :
  run world_with_model ["good morning"; "hello"] 1 =
    (OutOfFuel, (run world_with_model ["good morning"; "hello"] 1).2) ∧
  run world_with_model ["I lost my keys"; "hello"; "bye"] 1 =
    (OutOfFuel,
     (run world_with_model ["I lost my keys"; "hello"; "bye"] 1).2) ∧
  agree_on names_read
    (globals (run world_with_model ["good morning"; "hello"] 1).2)
    (globals (run world_with_model ["I lost my keys"; "hello"; "bye"] 1).2).
Proof.
  assert (run world_with_model ["good morning"; "hello"] 1 =
          (OutOfFuel, (run world_with_model ["good morning"; "hello"] 1).2))
    as H1 by (vm_compute; reflexivity).
  assert (run world_with_model ["I lost my keys"; "hello"; "bye"] 1 =
          (OutOfFuel,
           (run world_with_model ["I lost my keys"; "hello"; "bye"] 1).2))
    as H2 by (vm_compute; reflexivity).
  split; [exact H1|]. split; [exact H2|].
  exact (proj1 (no_conversation_history world_with_model
                  ["good morning"; "hello"] ["I lost my keys"; "hello"; "bye"]
                  1 "hello" _ _ eq_refl eq_refl H1 H2)).
Defined.

(** ** The reply *)

Lemma printed_turn_trace b cw line :
  printed (turn_trace b cw line) ≠ [] ∧
  Forall (λ s, s ≠ "") (printed (turn_trace b cw line)).
Proof.
  unfold turn_trace, reply.
  change (printed (EvInput (Some line) :: EvCall "generate_response" line :: ?l))
    with (printed l).
  pose proof (printed_dialogpt cw line) as Hd.
  destruct b; [|split; [done|by repeat constructor]].
  destruct (dialogpt cw line) as [evs [e|s]]; cbn [fst snd] in *.
  - rewrite !printed_app, Hd. split; [done|by repeat constructor].
  - destruct (truthy (VStr s)) eqn:Ht; cbn [fst snd];
      rewrite !printed_app, Hd; (split; [done|]); repeat constructor; try done.
    intros ->. done.
Qed.

(** X15.  Every turn prints, and prints no empty string.  Let [st] be the
    state in which turn [i] starts and let there be a line to read: the
    turn completes, it calls [print] at least once, and every string it
    prints is non-empty.  The strings are a reply only when
    [generate_response] returns; when it raises they are the diagnostic
    and the handler's message. *)
Theorem every_print_of_a_turn_is_nonempty (w : world) (lines : list string)
    (i : nat) (st : pystate) :
  run w lines i = (OutOfFuel, st) →
  i < length lines →
  ∃ st' outs,
    loop_body w st = (Ok Continue, st') ∧
    stdout st' = stdout st ++ outs ∧
    outs ≠ [] ∧
    Forall (λ s, s ≠ "") outs.
Proof.
  intros Hrun Hi.
  apply run_out_of_fuel in Hrun as (_ & Hready & _ & Hin & Hn & _).
  destruct (lookup_lt_is_Some_2 lines i Hi) as [x Hx].
  rewrite (drop_S _ _ _ Hx) in Hin.
  destruct (loop_body_turn w _ st _ _ Hready Hin) as (G & _ & ->).
  destruct (printed_turn_trace (model_available w) (calls w (S (reads st))) x)
    as [Hne Hall].
  eexists _, _. split; [reflexivity|].
  unfold stdout. cbn [trace]. rewrite printed_app. done.
Qed.

Lemma every_print_of_a_turn_is_nonempty_witness :
  run world_with_silent_model ["hello"] 0 =
    (OutOfFuel, (run world_with_silent_model ["hello"] 0).2) ∧
  0 < length ["hello"] ∧
  ∃ st' outs,
    loop_body world_with_silent_model
      (run world_with_silent_model ["hello"] 0).2 = (Ok Continue, st') ∧
    stdout st' = stdout (run world_with_silent_model ["hello"] 0).2 ++ outs ∧
    outs ≠ [] ∧
    Forall (λ s, s ≠ "") outs.
Proof.
  assert (run world_with_silent_model ["hello"] 0 =
          (OutOfFuel, (run world_with_silent_model ["hello"] 0).2)) as H
    by (vm_compute; reflexivity).
  assert (0 < length ["hello"]) as Hlt by (simpl; lia).
  split; [exact H|]. split; [exact Hlt|].
  exact (every_print_of_a_turn_is_nonempty world_with_silent_model
           ["hello"] 0 _ H Hlt).
Defined.

(** ** Where the code departs from its description *)

(** C1, the code at the failing inputs.  Without [transformers] the turn
    for the line ["hello"] writes the handler's message and no reply; with
    a model whose generation fails the turn writes two lines, the
    diagnostic and the handler's message, and no reply either. *)
Theorem turn_without_reply :
  run world_without_transformers ["hello"] 2 =
    (Ok (), (run world_without_transformers ["hello"] 2).2) ∧
  stdout (run world_without_transformers ["hello"] 2).2 =
    ["ChatBot initialized with basic response system";
     "Error: name 'random' is not defined"] ∧
  stdout (run world_with_failing_model ["hello"] 2).2 =
    ["ChatBot initialized with DialoGPT";
     "Error generating DialoGPT response: boom";
     "Error: name 'random' is not defined"] ∧
  Forall (λ s, s ∉ responses)
    (stdout (run world_without_transformers ["hello"] 2).2 ++
     stdout (run world_with_failing_model ["hello"] 2).2).
Proof.
  assert (stdout (run world_without_transformers ["hello"] 2).2 =
          ["ChatBot initialized with basic response system";
           "Error: name 'random' is not defined"]) as H1
    by (vm_compute; reflexivity).
  assert (stdout (run world_with_failing_model ["hello"] 2).2 =
          ["ChatBot initialized with DialoGPT";
           "Error generating DialoGPT response: boom";
           "Error: name 'random' is not defined"]) as H2
    by (vm_compute; reflexivity).
  split; [vm_compute; reflexivity|]. split; [exact H1|]. split; [exact H2|].
  rewrite H1, H2. repeat constructor; not_in_list.
Qed.

(** C2, the code at the failing input.  In the dictionary the program has
    when [transformers] is missing ([has_dialogpt] is [False]),
    [generate_response] returns nothing for any input: it raises
    [NameError] for the unbound name [random]. *)
Theorem generate_response_fallback_raises (cw : call_world)
    (input_text : string) :
  dictionary world_without_transformers !! "has_dialogpt"
    = Some (VBool false) ∧
  generate_response cw input_text
    (PyState (dictionary world_without_transformers) [] 0 []) =
  (Raise (name_error "random"),
   PyState (dictionary world_without_transformers) [] 0 []).
Proof.
  destruct (run_started world_without_transformers [] 0) as [Hready _].
  { intros e [= <-]. reflexivity. }
  change (model_available world_without_transformers) with false in Hready.
  split; [apply Hready|].
  rewrite (generate_response_ready false) by exact Hready.
  simpl. by rewrite log_all_nil.
Qed.

(** C3, the code at the failing input.  With the model loaded and a
    generation that raises [RuntimeError], [generate_response] catches the
    error and prints the diagnostic, but then raises [NameError] from its
    handler instead of returning a canned response. *)
Theorem generate_response_handler_raises :
  dictionary world_with_failing_model !! "has_dialogpt" = Some (VBool true) ∧
  generate_response failing_call "hello"
    (PyState (dictionary world_with_failing_model) [] 0 []) =
  (Raise (name_error "random"),
   PyState (dictionary world_with_failing_model) [] 0
     [EvEncode "hello<|endoftext|>"; EvGenerate [72; 105];
      EvPrint "Error generating DialoGPT response: boom"]).
Proof.
  destruct (run_started world_with_failing_model [] 0) as [Hready _].
  { intros e [=]. }
  change (model_available world_with_failing_model) with true in Hready.
  split; [apply Hready|].
  rewrite (generate_response_ready true) by exact Hready.
  reflexivity.
Qed.

(** C4, the code at the failing inputs.  The turn for the line ["hello"]
    writes no reply in two of the modes.  Without [transformers]
    [generate_response] raises [NameError] and the only string written is
    the handler's message.  With the model loaded and an empty decoded
    text, [generate_response] raises as well and the two strings written
    are the diagnostic and the handler's message.  None of these strings
    is a canned response, and the model produced none of them. *)
Theorem turn_writes_message_not_reply :
  (generate_response quiet_call "hello"
     (run world_without_transformers ["hello"] 0).2).1
    = Raise (name_error "random") ∧
  (loop_body world_without_transformers
     (run world_without_transformers ["hello"] 0).2).1 = Ok Continue ∧
  stdout (loop_body world_without_transformers
            (run world_without_transformers ["hello"] 0).2).2 =
    stdout (run world_without_transformers ["hello"] 0).2 ++
    ["Error: name 'random' is not defined"] ∧
  (generate_response silent_call "hello"
     (run world_with_silent_model ["hello"] 0).2).1
    = Raise (name_error "random") ∧
  tokenizer_decode silent_call
    (drop (length [72; 105]) [72; 105; 0]) = inr "" ∧
  stdout (loop_body world_with_silent_model
            (run world_with_silent_model ["hello"] 0).2).2 =
    stdout (run world_with_silent_model ["hello"] 0).2 ++
    ["Error generating DialoGPT response: name 'random' is not defined";
     "Error: name 'random' is not defined"] ∧
  Forall (λ s, s ∉ responses)
    ["Error: name 'random' is not defined";
     "Error generating DialoGPT response: name 'random' is not defined"].
Proof.
  split; [vm_compute; reflexivity|].
  split; [vm_compute; reflexivity|].
  split; [vm_compute; reflexivity|].
  split; [vm_compute; reflexivity|].
  split; [reflexivity|].
  split; [vm_compute; reflexivity|].
  repeat constructor; not_in_list.
Qed.

(** * Further properties of the script *)

(** The names the loop assigns (lines 84, 87, 89, 94 and 96). *)
Definition loop_names : list string := ["input_text"; "response"; "sys"; "e"].

(** The arguments [generate_response] was called with, in order. *)
Definition calls_of (evs : list event) : list string :=
  omap (λ ev, match ev with EvCall _ a => Some a | _ => None end) evs.

(** The lines [input()] returned, in order. *)
Definition inputs_of (evs : list event) : list string :=
  omap (λ ev, match ev with EvInput (Some l) => Some l | _ => None end) evs.

(** Events of a turn that lie between the call and the final print. *)
Definition inside_turn (ev : event) : bool :=
  match ev with
  | EvEncode _ | EvGenerate _ | EvDecode _ | EvPrint _ => true
  | _ => false
  end.

(** ** [generate_response] and the state *)

Lemma generate_response_logs_only cw input_text st :
  ∃ r evs, generate_response cw input_text st = (r, log_all evs st).
Proof.
  destruct (generate_response_reads_only cw input_text st st
              (agree_on_refl _ _)) as (r & evs & E & _).
  by exists r, evs.
Qed.

(** X1.  A call of [generate_response], in any state whatever, leaves the
    module dictionary, the unread input and the read counter as they were:
    all it does to the state is append events to the log. *)
Theorem generate_response_touches_only_the_log (cw : call_world)
    (input_text : string) (st : pystate) :
  globals (generate_response cw input_text st).2 = globals st ∧
  stdin (generate_response cw input_text st).2 = stdin st ∧
  reads (generate_response cw input_text st).2 = reads st ∧
  ∃ evs, trace (generate_response cw input_text st).2 = trace st ++ evs.
Proof.
  destruct (generate_response_logs_only cw input_text st) as (r & evs & ->).
  repeat split; try done. by exists evs.
Qed.

Lemma generate_response_preserves (I : gmap string pyval → Prop) cw input_text :
  preserves I (generate_response cw input_text) (λ _, True).
Proof.
  intros st HI.
  destruct (generate_response_logs_only cw input_text st) as (r & evs & ->).
  by split.
Qed.

Lemma loop_body_preserves w (I : gmap string pyval → Prop) :
  (∀ G y v, y ∈ loop_names → I G → I (<[y:=v]> G)) →
  (∀ G, I G → I (delete "e" G)) →
  preserves I (loop_body w) (λ _, True).
Proof.
  intros Hins Hdel.
  assert (∀ y v, y ∈ loop_names → preserves I (store_name y v) (λ _, True))
    as Hstore.
  { intros y v Hy. apply preserves_store. intros G. by apply Hins. }
  assert (preserves I import_sys_flush (λ _, True)) as Hflush.
  { unfold import_sys_flush.
    eapply preserves_bind; [apply Hstore; in_list|].
    intros _ _. apply preserves_emit. }
  unfold loop_body, print.
  apply preserves_try.
  - eapply preserves_bind; [apply preserves_input|]. intros line _.
    eapply preserves_bind; [apply Hstore; in_list|]. intros _ _.
    eapply preserves_bind; [apply preserves_load|]. intros f _.
    eapply preserves_bind with (P := λ _, True).
    { destruct (decide _); [|apply preserves_raise].
      eapply preserves_bind; [apply preserves_clock|]. intros n _.
      eapply preserves_bind; [apply preserves_emit|]. intros _ _.
      apply generate_response_preserves. }
    intros response _.
    eapply preserves_bind; [apply Hstore; in_list|]. intros _ _.
    eapply preserves_bind; [apply preserves_emit|]. intros _ _.
    eapply preserves_bind; [exact Hflush|].
    intros _ _. by apply preserves_ret.
  - intros e. destruct (isinstance e EOFError); [by apply preserves_ret|].
    destruct (isinstance e Exception); [|apply preserves_raise].
    eapply preserves_bind; [apply Hstore; in_list|]. intros _ _.
    eapply preserves_bind; [apply preserves_emit|]. intros _ _.
    eapply preserves_bind; [exact Hflush|]. intros _ _.
    eapply preserves_bind; [by apply preserves_del|].
    intros _ _. by apply preserves_ret.
Qed.

(** X2.  A turn of the loop, started in any state whatever, rebinds no
    name other than [input_text], [response], [sys] and [e]: every other
    entry of the module dictionary, bound or unbound, is as before. *)
Theorem loop_body_frame (w : world) (st : pystate) (x : string) :
  x ∉ loop_names →
  globals (loop_body w st).2 !! x = globals st !! x.
Proof.
  intros Hx.
  apply (loop_body_preserves w (λ G, G !! x = globals st !! x)); [| |done].
  - intros G y v Hy HG. rewrite lookup_insert_ne; [done|].
    intros ->. by apply Hx.
  - intros G HG. rewrite lookup_delete_ne; [done|].
    intros <-. apply Hx. in_list.
Qed.

Lemma loop_body_frame_witness :
("has_dialogpt" ∉ loop_names) ∧
  globals (loop_body world_with_model
             (PyState globals_with_random ["hello"] 0 [])).2
    !! "has_dialogpt" = Some (VBool false).
Proof.
  assert ("has_dialogpt" ∉ loop_names) as H by not_in_list.
  split; [exact H|].
  rewrite (loop_body_frame world_with_model
             (PyState globals_with_random ["hello"] 0 []) "has_dialogpt" H).
  reflexivity.
Defined.

(** X3.  In any state a run of the program reaches, whatever the libraries
    do, a call of [generate_response] either returns a non-empty string
    (and then the model is available) or raises the [NameError] for
    [random]: no exception of the tokenizer or the model leaves the
    function. *)
Theorem generate_response_returns_or_NameError (w : world)
    (lines : list string) (fuel : nat) (cw : call_world)
    (input_text : string) :
  is_Some (globals (run w lines fuel).2 !! "has_dialogpt") →
  (∃ s, (generate_response cw input_text (run w lines fuel).2).1 = Ok s ∧
        s ≠ "" ∧
        globals (run w lines fuel).2 !! "has_dialogpt" = Some (VBool true)) ∨
  (generate_response cw input_text (run w lines fuel).2).1 =
    Raise (name_error "random").
Proof.
  destruct (run_spec w lines fuel)
    as [(e & G & _ & _ & Hh & _ & ->)|(_ & st & -> & HG & _)];
    cbn [snd globals]; intros Hsome.
  { rewrite Hh in Hsome. by destruct Hsome. }
  rewrite (generate_response_ready _ cw input_text st HG). cbn [fst].
  destruct (reply_cases (model_available w) cw input_text)
    as [(s & Hs & Hne & Hb & _)|Hr]; [left|by right].
  exists s. split; [done|]. split; [done|].
  destruct HG as (Hh & _). by rewrite Hh, Hb.
Qed.

Lemma generate_response_returns_or_NameError_witness :
  is_Some (globals (run world_with_model ["hello"] 1).2 !! "has_dialogpt") ∧
  (generate_response failing_call "anything"
     (run world_with_model ["hello"] 1).2).1 = Raise (name_error "random").
Proof.
  assert (is_Some (globals (run world_with_model ["hello"] 1).2
                     !! "has_dialogpt")) as H
    by (exists (VBool true); vm_compute; reflexivity).
  split; [exact H|].
  destruct (generate_response_returns_or_NameError world_with_model
              ["hello"] 1 failing_call "anything" H) as [(s & Hs & _)|Hr].
  - exfalso. revert Hs. vm_compute. discriminate.
  - exact Hr.
Defined.

(** ** Start-up, continued *)

Lemma banner_printed w :
  (∀ e, startup_failure w = Some e → isinstance e ImportError = true) →
  banner w =
    [EvPrint (if model_available w then "ChatBot initialized with DialoGPT"
              else "ChatBot initialized with basic response system")].
Proof.
  intros Hs. unfold banner, model_available.
  destruct (startup_failure w) as [e|]; [|done].
  by rewrite (Hs e eq_refl).
Qed.

(** X4.  Whenever [has_dialogpt] is bound, the first line on standard
    output is the start-up banner that matches its value; the replies come
    after it. *)
Theorem banner_is_first_line (w : world) (lines : list string) (fuel : nat)
    (b : bool) :
  globals (run w lines fuel).2 !! "has_dialogpt" = Some (VBool b) →
  head (stdout (run w lines fuel).2) =
    Some (if b then "ChatBot initialized with DialoGPT"
          else "ChatBot initialized with basic response system").
Proof.
  destruct (run_spec w lines fuel)
    as [(e & G & _ & _ & Hh & _ & ->)|(Hs & st & -> & HG & _ & _ & _ & Htr)];
    cbn [snd globals]; intros Hb; [congruence|].
  destruct HG as (Hh & _). rewrite Hh in Hb. injection Hb as <-.
  unfold stdout. rewrite Htr, (banner_printed w Hs).
  by rewrite !printed_app, printed_startup_trace.
Qed.

Lemma banner_is_first_line_witness :
  globals (run world_with_model ["hello"] 2).2 !! "has_dialogpt"
    = Some (VBool true) ∧
  head (stdout (run world_with_model ["hello"] 2).2)
    = Some "ChatBot initialized with DialoGPT".
Proof.
  assert (globals (run world_with_model ["hello"] 2).2 !! "has_dialogpt"
          = Some (VBool true)) as H by (vm_compute; reflexivity).
  split; [exact H|].
  exact (banner_is_first_line world_with_model ["hello"] 2 true H).
Defined.

Lemma dictionary_model w :
  (∀ e, startup_failure w = Some e → isinstance e ImportError = true) →
  dictionary w !! "model" =
    (if model_available w then Some (VObject "model") else None) ∧
  (dictionary w !! "tokenizer" = None → dictionary w !! "model" = None).
Proof.
  destruct w as [[e1|] [e2|] [e3|] [e4|] c];
    unfold startup_failure, model_available, dictionary; simpl;
    intros Hi;
    unfold run, program, startup, initial; world_proj;
    exec; lookups; exec;
    try rewrite (Hi _ eq_refl); exec; lookups; split; try done;
    intros; by lookups.
Qed.

(** X5.  Whenever [has_dialogpt] is bound, it is [True] exactly when the
    name [model] is bound, and then [tokenizer] is bound too: the flag
    guards every use of the two objects. *)
Theorem has_dialogpt_iff_model_bound (w : world) (lines : list string)
    (fuel : nat) :
  is_Some (globals (run w lines fuel).2 !! "has_dialogpt") →
  (globals (run w lines fuel).2 !! "has_dialogpt" = Some (VBool true) ↔
   globals (run w lines fuel).2 !! "model" = Some (VObject "model")) ∧
  (globals (run w lines fuel).2 !! "has_dialogpt" = Some (VBool true) →
   globals (run w lines fuel).2 !! "tokenizer" = Some (VObject "tokenizer")).
Proof.
  destruct (run_spec w lines fuel)
    as [(e & G & _ & _ & Hh & _ & ->)|(Hs & st & -> & HG & Ha & _)];
    cbn [snd globals]; intros Hsome.
  { rewrite Hh in Hsome. by destruct Hsome. }
  destruct (dictionary_model w Hs) as [Hm _].
  assert (globals st !! "model" = dictionary w !! "model") as Hmodel
    by (apply Ha; in_list).
  destruct HG as (Hh & _ & _ & _ & Htm). rewrite Hh, Hmodel, Hm.
  destruct (model_available w); split; try split; try done.
  intros _. by apply Htm.
Qed.

Lemma has_dialogpt_iff_model_bound_witness :
  is_Some (globals (run world_without_transformers ["hello"] 1).2
             !! "has_dialogpt") ∧
  ¬ (globals (run world_without_transformers ["hello"] 1).2 !! "model"
     = Some (VObject "model")).
Proof.
  assert (is_Some (globals (run world_without_transformers ["hello"] 1).2
                     !! "has_dialogpt")) as H
    by (exists (VBool false); vm_compute; reflexivity).
  split; [exact H|].
  intros Hm.
  apply (has_dialogpt_iff_model_bound world_without_transformers
           ["hello"] 1 H) in Hm.
  revert Hm. vm_compute. discriminate.
Defined.

Lemma startup_trace_import_failed w :
  import_transformers w ≠ None ∨ import_torch w ≠ None →
  Forall (λ ev, is_load ev = false) (startup_trace w).
Proof.
  destruct w as [[e1|] [e2|] [e3|] [e4|] c]; simpl;
    intros [H|H]; try done; by repeat constructor.
Qed.

(** X6.  If one of the two imports of the start-up block raises, whatever
    it raises, no pretrained file is ever loaded: the log of the run
    contains no [from_pretrained] call. *)
Theorem nothing_loaded_when_import_fails (w : world) (lines : list string)
    (fuel : nat) :
  import_transformers w ≠ None ∨ import_torch w ≠ None →
  Forall (λ ev, is_load ev = false) (trace (run w lines fuel).2).
Proof.
  intros Himp.
  destruct (run_trace_split w lines fuel) as (post & -> & Hpost).
  rewrite Forall_app. split; [by apply startup_trace_import_failed|done].
Qed.

Lemma nothing_loaded_when_import_fails_witness :
  (import_transformers world_without_transformers ≠ None ∨
   import_torch world_without_transformers ≠ None) ∧
  Forall (λ ev, is_load ev = false)
    (trace (run world_without_transformers ["hello"] 2).2).
Proof.
  assert (import_transformers world_without_transformers ≠ None ∨
          import_torch world_without_transformers ≠ None) as H
    by (left; discriminate).
  split; [exact H|].
  exact (nothing_loaded_when_import_fails world_without_transformers
           ["hello"] 2 H).
Defined.

(** ** The turns of the loop *)

Lemma calls_of_app evs evs' :
  calls_of (evs ++ evs') = calls_of evs ++ calls_of evs'.
Proof. apply omap_app. Qed.

Lemma inputs_of_app evs evs' :
  inputs_of (evs ++ evs') = inputs_of evs ++ inputs_of evs'.
Proof. apply omap_app. Qed.

Lemma reply_inside b cw input_text :
  Forall (λ ev, inside_turn ev = true) (reply b cw input_text).1.
Proof.
  unfold reply. destruct b; [|constructor].
  assert (Forall (λ ev, inside_turn ev = true) (dialogpt cw input_text).1)
    as Hd.
  { unfold dialogpt. destruct (tokenizer_encode cw _); [by repeat constructor|].
    destruct (model_generate cw _); by repeat constructor. }
  destruct (dialogpt cw input_text) as [evs [e|s]]; cbn [fst] in Hd.
  - cbn [fst]. rewrite Forall_app. by repeat constructor.
  - destruct (truthy (VStr s)); cbn [fst]; [done|].
    rewrite Forall_app. by repeat constructor.
Qed.

Lemma inside_turn_no_call evs :
  Forall (λ ev, inside_turn ev = true) evs →
  calls_of evs = [] ∧ inputs_of evs = [].
Proof.
  induction 1 as [|ev evs Hev _ [IH1 IH2]]; [done|].
  destruct ev; try done.
Qed.

Lemma answer_shape b cw input_text :
  ∃ s, answer (reply b cw input_text).2 = [EvPrint s; EvFlush] ∧ s ≠ "".
Proof.
  destruct (reply_cases b cw input_text) as [(s & -> & Hs & _)| ->].
  - by exists s.
  - by eexists.
Qed.

Lemma turn_trace_calls b cw line :
  calls_of (turn_trace b cw line) = [line] ∧
  inputs_of (turn_trace b cw line) = [line].
Proof.
  unfold turn_trace.
  destruct (inside_turn_no_call _ (reply_inside b cw line)) as [Hc Hi].
  destruct (answer_shape b cw line) as (s & Ha & _).
  change (calls_of (EvInput (Some line) :: EvCall "generate_response" line :: ?l))
    with (line :: calls_of l).
  change (inputs_of (EvInput (Some line) :: EvCall "generate_response" line :: ?l))
    with (line :: inputs_of l).
  by rewrite calls_of_app, inputs_of_app, Hc, Hi, Ha.
Qed.

Lemma loop_trace_calls b w n lines :
  calls_of (loop_trace b w n lines) = lines ∧
  inputs_of (loop_trace b w n lines) = lines.
Proof.
  revert n. induction lines as [|line rest IH]; intros n; [done|].
  cbn [loop_trace]. rewrite calls_of_app, inputs_of_app.
  destruct (turn_trace_calls b (calls w (S n)) line) as [-> ->].
  destruct (IH (S n)) as [-> ->]. done.
Qed.

Lemma startup_trace_calls w :
  calls_of (startup_trace w) = [] ∧ inputs_of (startup_trace w) = [].
Proof. by destruct w as [[?|] [?|] [?|] [?|] ?]. Qed.

Lemma banner_calls w : calls_of (banner w) = [] ∧ inputs_of (banner w) = [].
Proof.
  unfold banner. destruct (startup_failure w) as [e|]; [|done].
  by destruct (isinstance e ImportError).
Qed.

(** X7.  Every line read is handed to [generate_response] once, unchanged
    and in order: after [fuel] turns of a run that entered the loop, the
    lines [input()] returned and the arguments of the calls of
    [generate_response] are both the first [fuel] lines of the input. *)
Theorem every_line_is_answered_in_order (w : world) (lines : list string)
    (fuel : nat) :
  is_Some (globals (run w lines fuel).2 !! "has_dialogpt") →
  inputs_of (trace (run w lines fuel).2) = take fuel lines ∧
  calls_of (trace (run w lines fuel).2) = take fuel lines.
Proof.
  destruct (run_spec w lines fuel)
    as [(e & G & _ & _ & Hh & _ & ->)|(_ & st & -> & _ & _ & _ & _ & Htr)];
    cbn [snd globals]; intros Hsome.
  { rewrite Hh in Hsome. by destruct Hsome. }
  rewrite Htr, !calls_of_app, !inputs_of_app.
  destruct (startup_trace_calls w) as [-> ->].
  destruct (banner_calls w) as [-> ->].
  destruct (loop_trace_calls (model_available w) w 0 (take fuel lines))
    as [-> ->].
  destruct (decide _); simpl; by rewrite app_nil_r.
Qed.

Lemma every_line_is_answered_in_order_witness :
  is_Some (globals (run world_with_failing_model ["a"; "b"; "c"] 2).2
             !! "has_dialogpt") ∧
  calls_of (trace (run world_with_failing_model ["a"; "b"; "c"] 2).2)
    = ["a"; "b"].
Proof.
  assert (is_Some (globals (run world_with_failing_model ["a"; "b"; "c"] 2).2
                     !! "has_dialogpt")) as H
    by (exists (VBool true); vm_compute; reflexivity).
  split; [exact H|].
  exact (proj2 (every_line_is_answered_in_order world_with_failing_model
                  ["a"; "b"; "c"] 2 H)).
Defined.

Lemma printed_turn_trace_length b cw line :
  1 ≤ length (printed (turn_trace b cw line)) ≤ 2.
Proof.
  unfold turn_trace, reply.
  change (printed (EvInput (Some line) :: EvCall "generate_response" line :: ?l))
    with (printed l).
  pose proof (printed_dialogpt cw line) as Hd.
  destruct b; [|simpl; lia].
  destruct (dialogpt cw line) as [evs [e|s]]; cbn [fst snd] in *.
  - rewrite !printed_app, Hd. simpl. lia.
  - destruct (truthy (VStr s)); cbn [fst snd];
      rewrite !printed_app, Hd; simpl; lia.
Qed.

Lemma printed_loop_trace_length b w n lines :
  length lines ≤ length (printed (loop_trace b w n lines)) ≤ 2 * length lines.
Proof.
  revert n. induction lines as [|line rest IH]; intros n; [simpl; lia|].
  cbn [loop_trace]. rewrite printed_app, length_app.
  pose proof (printed_turn_trace_length b (calls w (S n)) line).
  specialize (IH (S n)). cbn [length]. lia.
Qed.

(** X8.  The program calls [print] once for the banner and, for each line
    answered, once or twice: after [fuel] turns of a run that entered the
    loop, with [n] the number of input lines read so far, the number of
    [print] calls made lies between [n + 1] and [2 * n + 1].  (A printed
    string that holds a newline makes several lines of output; the count
    is of calls, not of output lines.) *)
Theorem one_or_two_prints_per_turn (w : world) (lines : list string)
    (fuel : nat) :
  is_Some (globals (run w lines fuel).2 !! "has_dialogpt") →
  fuel `min` length lines + 1 ≤ length (stdout (run w lines fuel).2) ∧
  length (stdout (run w lines fuel).2) ≤ 2 * (fuel `min` length lines) + 1.
Proof.
  destruct (run_spec w lines fuel)
    as [(e & G & _ & _ & Hh & _ & ->)|(Hs & st & -> & _ & _ & _ & _ & Htr)];
    cbn [snd globals]; intros Hsome.
  { rewrite Hh in Hsome. by destruct Hsome. }
  unfold stdout. rewrite Htr, (banner_printed w Hs), !printed_app.
  rewrite printed_startup_trace, !length_app.
  pose proof (printed_loop_trace_length (model_available w) w 0
                (take fuel lines)) as Hlen.
  rewrite length_take in Hlen.
  destruct (decide _); simpl; lia.
Qed.

Lemma one_or_two_prints_per_turn_witness :
  is_Some (globals (run world_with_failing_model ["a"; "b"] 3).2
             !! "has_dialogpt") ∧
  length (stdout (run world_with_failing_model ["a"; "b"] 3).2)
    ≤ 2 * (3 `min` length ["a"; "b"]) + 1.
Proof.
  assert (is_Some (globals (run world_with_failing_model ["a"; "b"] 3).2
                     !! "has_dialogpt")) as H
    by (exists (VBool true); vm_compute; reflexivity).
  split; [exact H|].
  exact (proj2 (one_or_two_prints_per_turn world_with_failing_model
                  ["a"; "b"] 3 H)).
Defined.

Lemma turn_at w lines i x st :
  run w lines i = (OutOfFuel, st) →
  lines !! i = Some x →
  globals st !! "has_dialogpt" = Some (VBool (model_available w)) ∧
  ∃ G,
    loop_body w st =
      (Ok Continue,
       PyState G (drop (S i) lines) (S i)
         (trace st ++ turn_trace (model_available w) (calls w (S i)) x)).
Proof.
  intros Hrun Hx.
  apply run_out_of_fuel in Hrun as (_ & Hready & _ & Hin & Hn & _).
  rewrite (drop_S _ _ _ Hx) in Hin.
  split; [apply Hready|].
  destruct (loop_body_turn w _ st _ _ Hready Hin) as (G & _ & ->).
  rewrite Hn. by exists G.
Qed.

Lemma truthy_nonempty s : s ≠ "" → truthy (VStr s) = true.
Proof. intros Hs. by destruct s. Qed.

Lemma reply_success cw x ids out s :
  tokenizer_encode cw (x +:+ eos_token cw) = inr ids →
  model_generate cw ids = inr out →
  tokenizer_decode cw (drop (length ids) out) = inr s →
  s ≠ "" →
  reply true cw x =
    ([EvEncode (x +:+ eos_token cw); EvGenerate ids;
      EvDecode (drop (length ids) out)], Ok s).
Proof.
  intros He Hg Hd Hs. unfold reply, dialogpt. cbv zeta.
  rewrite He, Hg, Hd. by rewrite (truthy_nonempty s Hs).
Qed.

Lemma reply_empty cw x ids out :
  tokenizer_encode cw (x +:+ eos_token cw) = inr ids →
  model_generate cw ids = inr out →
  tokenizer_decode cw (drop (length ids) out) = inr "" →
  reply true cw x =
    ([EvEncode (x +:+ eos_token cw); EvGenerate ids;
      EvDecode (drop (length ids) out); diagnostic (name_error "random")],
     Raise (name_error "random")).
Proof.
  intros He Hg Hd. unfold reply, dialogpt. cbv zeta.
  by rewrite He, Hg, Hd.
Qed.

Lemma reply_failure cw x e :
  tokenizer_encode cw (x +:+ eos_token cw) = inl e ∨
  (∃ ids, tokenizer_encode cw (x +:+ eos_token cw) = inr ids ∧
          model_generate cw ids = inl e) ∨
  (∃ ids out, tokenizer_encode cw (x +:+ eos_token cw) = inr ids ∧
              model_generate cw ids = inr out ∧
              tokenizer_decode cw (drop (length ids) out) = inl e) →
  ∃ evs, printed evs = [] ∧
    reply true cw x = (evs ++ [diagnostic e], Raise (name_error "random")).
Proof.
  unfold reply, dialogpt. cbv zeta.
  intros [He|[(ids & He & Hg)|(ids & out & He & Hg & Hd)]].
  - rewrite He. eexists. split; [|reflexivity]. done.
  - rewrite He, Hg. eexists. split; [|reflexivity]. done.
  - rewrite He, Hg, Hd. eexists. split; [|reflexivity]. done.
Qed.

(** X9.  The successful turn.  When the model is available and, for the
    line [x] of turn [i], the tokenizer encodes, the model generates and
    the tokenizer decodes the tokens that follow the prompt into a
    non-empty text [s], the turn does exactly this, in order: read [x],
    call [generate_response] with it, encode [x] followed by the
    end-of-sequence token, generate, decode the generated tokens without
    the prompt, print [s], flush.  Nothing else is logged and the line is
    consumed. *)
Theorem model_reply_is_printed (w : world) (lines : list string) (i : nat)
    (x : string) (st : pystate) (ids out : list nat) (s : string) :
  run w lines i = (OutOfFuel, st) →
  lines !! i = Some x →
  globals st !! "has_dialogpt" = Some (VBool true) →
  tokenizer_encode (calls w (S i)) (x +:+ eos_token (calls w (S i)))
    = inr ids →
  model_generate (calls w (S i)) ids = inr out →
  tokenizer_decode (calls w (S i)) (drop (length ids) out) = inr s →
  s ≠ "" →
  ∃ st',
    loop_body w st = (Ok Continue, st') ∧
    stdin st' = drop (S i) lines ∧
    trace st' =
      trace st ++
      [EvInput (Some x); EvCall "generate_response" x;
       EvEncode (x +:+ eos_token (calls w (S i))); EvGenerate ids;
       EvDecode (drop (length ids) out); EvPrint s; EvFlush].
Proof.
  intros Hrun Hx Hh He Hg Hd Hs.
  destruct (turn_at w lines i x st Hrun Hx) as (Hh' & G & ->).
  rewrite Hh in Hh'. injection Hh' as <-.
  eexists. split; [reflexivity|]. split; [done|].
  cbn [trace]. unfold turn_trace.
  by rewrite (reply_success _ _ _ _ _ He Hg Hd Hs).
Qed.

Lemma model_reply_is_printed_witness :
  run world_with_model ["hello"] 0 =
    (OutOfFuel, (run world_with_model ["hello"] 0).2) ∧
  ∃ st',
    loop_body world_with_model (run world_with_model ["hello"] 0).2
      = (Ok Continue, st') ∧
    stdin st' = drop 1 ["hello"] ∧
    trace st' =
      trace (run world_with_model ["hello"] 0).2 ++
      [EvInput (Some "hello"); EvCall "generate_response" "hello";
       EvEncode ("hello" +:+ eos_token (calls world_with_model 1));
       EvGenerate [72; 105];
       EvDecode (drop (length [72; 105]) [72; 105; 79; 75]);
       EvPrint "Hi"; EvFlush].
Proof.
  assert (run world_with_model ["hello"] 0 =
          (OutOfFuel, (run world_with_model ["hello"] 0).2)) as H
    by (vm_compute; reflexivity).
  split; [exact H|].
  apply (model_reply_is_printed world_with_model ["hello"] 0 "hello" _
           [72; 105] [72; 105; 79; 75] "Hi" H).
  - reflexivity.
  - vm_compute. reflexivity.
  - reflexivity.
  - reflexivity.
  - reflexivity.
  - discriminate.
Defined.

(** X10.  The empty reply.  When the model is available and the text
    decoded for the line of turn [i] is the empty string, the [NameError]
    raised by [random.choice] on line 73 is caught by the function's own
    handler and reported as a DialoGPT error, the handler raises it again,
    and the turn writes exactly these two lines. *)
Theorem empty_reply_reported_as_error (w : world) (lines : list string)
    (i : nat) (x : string) (st : pystate) (ids out : list nat) :
  run w lines i = (OutOfFuel, st) →
  lines !! i = Some x →
  globals st !! "has_dialogpt" = Some (VBool true) →
  tokenizer_encode (calls w (S i)) (x +:+ eos_token (calls w (S i)))
    = inr ids →
  model_generate (calls w (S i)) ids = inr out →
  tokenizer_decode (calls w (S i)) (drop (length ids) out) = inr "" →
  ∃ st',
    loop_body w st = (Ok Continue, st') ∧
    stdout st' =
      stdout st ++
      ["Error generating DialoGPT response: name 'random' is not defined";
       "Error: name 'random' is not defined"].
Proof.
  intros Hrun Hx Hh He Hg Hd.
  destruct (turn_at w lines i x st Hrun Hx) as (Hh' & G & ->).
  rewrite Hh in Hh'. injection Hh' as <-.
  eexists. split; [reflexivity|].
  unfold stdout. cbn [trace]. unfold turn_trace.
  rewrite (reply_empty _ _ _ _ He Hg Hd). by rewrite printed_app.
Qed.

Lemma empty_reply_reported_as_error_witness :
  run world_with_silent_model ["hello"] 0 =
    (OutOfFuel, (run world_with_silent_model ["hello"] 0).2) ∧
  ∃ st',
    loop_body world_with_silent_model
      (run world_with_silent_model ["hello"] 0).2 = (Ok Continue, st') ∧
    stdout st' =
      stdout (run world_with_silent_model ["hello"] 0).2 ++
      ["Error generating DialoGPT response: name 'random' is not defined";
       "Error: name 'random' is not defined"].
Proof.
  assert (run world_with_silent_model ["hello"] 0 =
          (OutOfFuel, (run world_with_silent_model ["hello"] 0).2)) as H
    by (vm_compute; reflexivity).
  split; [exact H|].
  apply (empty_reply_reported_as_error world_with_silent_model ["hello"] 0
           "hello" _ [72; 105] [72; 105; 0] H).
  - reflexivity.
  - vm_compute. reflexivity.
  - reflexivity.
  - reflexivity.
  - reflexivity.
Defined.

(** X11.  The failing library.  When the model is available and, for the
    line of turn [i], the encoding, the generation or the decoding raises
    [e], the turn writes exactly two lines: the diagnostic carrying the
    message of [e], then the message of the [NameError] the handler ran
    into.  The message of [e] appears in the first line only. *)
Theorem library_error_reported_then_NameError (w : world)
    (lines : list string) (i : nat) (x : string) (st : pystate) (e : exn) :
  run w lines i = (OutOfFuel, st) →
  lines !! i = Some x →
  globals st !! "has_dialogpt" = Some (VBool true) →
  tokenizer_encode (calls w (S i)) (x +:+ eos_token (calls w (S i))) = inl e ∨
  (∃ ids,
     tokenizer_encode (calls w (S i)) (x +:+ eos_token (calls w (S i)))
       = inr ids ∧
     model_generate (calls w (S i)) ids = inl e) ∨
  (∃ ids out,
     tokenizer_encode (calls w (S i)) (x +:+ eos_token (calls w (S i)))
       = inr ids ∧
     model_generate (calls w (S i)) ids = inr out ∧
     tokenizer_decode (calls w (S i)) (drop (length ids) out) = inl e) →
  ∃ st',
    loop_body w st = (Ok Continue, st') ∧
    stdout st' =
      stdout st ++
      ["Error generating DialoGPT response: " +:+ exn_msg e;
       "Error: name 'random' is not defined"].
Proof.
  intros Hrun Hx Hh Hfail.
  destruct (turn_at w lines i x st Hrun Hx) as (Hh' & G & ->).
  rewrite Hh in Hh'. injection Hh' as <-.
  destruct (reply_failure _ _ _ Hfail) as (evs & Hevs & Hreply).
  eexists. split; [reflexivity|].
  unfold stdout. cbn [trace]. unfold turn_trace.
  rewrite Hreply. cbn [fst snd]. rewrite printed_app.
  change (printed (EvInput (Some x) :: EvCall "generate_response" x :: ?l))
    with (printed l).
  by rewrite !printed_app, Hevs.
Qed.

Lemma library_error_reported_then_NameError_witness :
  run world_with_failing_model ["hello"] 0 =
    (OutOfFuel, (run world_with_failing_model ["hello"] 0).2) ∧
  ∃ st',
    loop_body world_with_failing_model
      (run world_with_failing_model ["hello"] 0).2 = (Ok Continue, st') ∧
    stdout st' =
      stdout (run world_with_failing_model ["hello"] 0).2 ++
      ["Error generating DialoGPT response: " +:+
         exn_msg (Exn RuntimeError "boom");
       "Error: name 'random' is not defined"].
Proof.
  assert (run world_with_failing_model ["hello"] 0 =
          (OutOfFuel, (run world_with_failing_model ["hello"] 0).2)) as H
    by (vm_compute; reflexivity).
  split; [exact H|].
  apply (library_error_reported_then_NameError world_with_failing_model
           ["hello"] 0 "hello" _ (Exn RuntimeError "boom") H).
  - reflexivity.
  - vm_compute. reflexivity.
  - right. left. exists [72; 105]. split; reflexivity.
Defined.

(** X12.  The shape of a turn.  Every turn that reads a line reads it
    first, calls [generate_response] with it next, and ends by printing a
    non-empty line and flushing standard output; in between there are only
    library calls and prints, so the turn reads one line, flushes once and
    flushes last. *)
Theorem turn_ends_with_print_and_flush (w : world) (lines : list string)
    (i : nat) (x : string) (st : pystate) :
  run w lines i = (OutOfFuel, st) →
  lines !! i = Some x →
  ∃ st' mid s,
    loop_body w st = (Ok Continue, st') ∧
    reads st' = S i ∧
    stdin st' = drop (S i) lines ∧
    trace st' =
      trace st ++
      [EvInput (Some x); EvCall "generate_response" x] ++ mid ++
      [EvPrint s; EvFlush] ∧
    Forall (λ ev, inside_turn ev = true) mid ∧
    s ≠ "".
Proof.
  intros Hrun Hx.
  destruct (turn_at w lines i x st Hrun Hx) as (_ & G & ->).
  destruct (answer_shape (model_available w) (calls w (S i)) x)
    as (s & Ha & Hs).
  eexists _, _, s. split; [reflexivity|].
  split; [done|]. split; [done|].
  split; [|split; [apply reply_inside|exact Hs]].
  cbn [trace]. unfold turn_trace. by rewrite Ha.
Qed.

Lemma turn_ends_with_print_and_flush_witness :
  run world_without_transformers ["hello"] 0 =
    (OutOfFuel, (run world_without_transformers ["hello"] 0).2) ∧
  ∃ st' mid s,
    loop_body world_without_transformers
      (run world_without_transformers ["hello"] 0).2 = (Ok Continue, st') ∧
    reads st' = 1 ∧
    stdin st' = drop 1 ["hello"] ∧
    trace st' =
      trace (run world_without_transformers ["hello"] 0).2 ++
      [EvInput (Some "hello"); EvCall "generate_response" "hello"] ++ mid ++
      [EvPrint s; EvFlush] ∧
    Forall (λ ev, inside_turn ev = true) mid ∧
    s ≠ "".
Proof.
  assert (run world_without_transformers ["hello"] 0 =
          (OutOfFuel, (run world_without_transformers ["hello"] 0).2)) as H
    by (vm_compute; reflexivity).
  split; [exact H|].
  exact (turn_ends_with_print_and_flush world_without_transformers ["hello"]
           0 "hello" _ H eq_refl).
Defined.

(** ** [generate_response] once [random] is bound *)

Lemma responses_nonempty : Forall (λ s, s ≠ "") responses.
Proof. by repeat constructor. Qed.

Lemma random_choice_bound cw st :
  globals st !! "random" = Some (VModule "random") →
  responses_intact (globals st) →
  ∃ s, responses !! (random_index cw `mod` length responses) = Some s ∧
       random_choice_responses cw st = (Ok s, st).
Proof.
  intros Hr Hl. destruct st as [G i n tr]. simpl in Hr, Hl.
  unfold responses_intact in Hl.
  destruct (lookup_lt_is_Some_2 responses
              (random_index cw `mod` length responses)) as [s Hs].
  { apply Nat.mod_upper_bound. done. }
  exists s. split; [exact Hs|].
  unfold random_choice_responses. exec. rewrite Hr. exec.
  destruct (decide _) as [_|]; [|congruence]. exec.
  rewrite Hl. exec. by rewrite Hs.
Qed.

(** X13.  The fallback as written.  In any state where [has_dialogpt] is
    [False], [responses] is the list of lines 32-53 and the name [random]
    is bound to the module, [generate_response] returns the element of the
    list at the index the generator draws, which is a non-empty string; it
    raises nothing, logs nothing and changes nothing. *)
Theorem canned_reply_when_random_bound (cw : call_world)
    (input_text : string) (st : pystate) :
  globals st !! "has_dialogpt" = Some (VBool false) →
  globals st !! "random" = Some (VModule "random") →
  responses_intact (globals st) →
  ∃ s,
    generate_response cw input_text st = (Ok s, st) ∧
    responses !! (random_index cw `mod` length responses) = Some s ∧
    s ∈ responses ∧
    s ≠ "".
Proof.
  intros Hh Hr Hl.
  destruct (random_choice_bound cw st Hr Hl) as (s & Hs & Hc).
  exists s. split; [|split; [exact Hs|split]].
  - destruct st as [G i n tr]. simpl in Hh.
    unfold generate_response. exec. rewrite Hh.
    change (truthy (VBool false)) with false. exec. exact Hc.
  - by eapply list_elem_of_lookup_2.
  - pose proof responses_nonempty as Hne.
    rewrite Forall_lookup in Hne. by eapply Hne.
Qed.

Lemma canned_reply_when_random_bound_witness :
  globals_with_random !! "has_dialogpt" = Some (VBool false) ∧
  ∃ s,
    generate_response quiet_call "hello" (PyState globals_with_random [] 0 [])
      = (Ok s, PyState globals_with_random [] 0 []) ∧
    responses !! (random_index quiet_call `mod` length responses) = Some s ∧
    s ∈ responses ∧
    s ≠ "".
Proof.
  assert (globals_with_random !! "has_dialogpt" = Some (VBool false)) as H
    by reflexivity.
  split; [exact H|].
  apply (canned_reply_when_random_bound quiet_call "hello"
           (PyState globals_with_random [] 0 []) H); reflexivity.
Defined.

(** X14.  Catch and fall back, as written.  In any state where
    [has_dialogpt] is [True], [tokenizer] and [model] are bound,
    [responses] is the list of lines 32-53 and [random] is bound to the
    module: when the encoding, the generation or the decoding raises [e],
    [generate_response] prints one diagnostic line carrying the message of
    [e] and returns an element of the list; [e] does not reach the
    caller. *)
Theorem library_error_falls_back_when_random_bound (cw : call_world)
    (input_text : string) (st : pystate) (t m : pyval) (e : exn) :
  globals st !! "has_dialogpt" = Some (VBool true) →
  globals st !! "tokenizer" = Some t →
  globals st !! "model" = Some m →
  globals st !! "random" = Some (VModule "random") →
  responses_intact (globals st) →
  tokenizer_encode cw (input_text +:+ eos_token cw) = inl e ∨
  (∃ ids, tokenizer_encode cw (input_text +:+ eos_token cw) = inr ids ∧
          model_generate cw ids = inl e) ∨
  (∃ ids out, tokenizer_encode cw (input_text +:+ eos_token cw) = inr ids ∧
              model_generate cw ids = inr out ∧
              tokenizer_decode cw (drop (length ids) out) = inl e) →
  ∃ s evs,
    generate_response cw input_text st = (Ok s, log_all evs st) ∧
    printed evs = ["Error generating DialoGPT response: " +:+ exn_msg e] ∧
    s ∈ responses.
Proof.
  intros Hh Ht Hm Hr Hl Hfail.
  assert (∀ evs, ∃ s,
            s ∈ responses ∧
            random_choice_responses cw (log_all evs st)
              = (Ok s, log_all evs st)) as Hc.
  { intros evs.
    destruct (random_choice_bound cw (log_all evs st) Hr Hl) as (s & Hs & Hc).
    exists s. split; [by eapply list_elem_of_lookup_2|exact Hc]. }
  destruct st as [G i n tr]. simpl in Hh, Ht, Hm.
  unfold generate_response. exec. rewrite Hh.
  change (truthy (VBool true)) with true. exec. rewrite Ht. exec.
  destruct Hfail as [He|[(ids & He & Hg)|(ids & out & He & Hg & Hd)]].
  - rewrite He. exec. rewrite isinstance_Exception.
    destruct (Hc [EvEncode (input_text +:+ eos_token cw); diagnostic e])
      as (s & Hs & Hcs).
    exists s, [EvEncode (input_text +:+ eos_token cw); diagnostic e].
    split; [|by split].
    unfold log_all in Hcs. cbn [globals stdin reads trace] in Hcs.
    rewrite <- Hcs. unfold diagnostic. by rewrite <- !app_assoc.
  - rewrite He. exec. rewrite Hm. exec. rewrite Hg. exec.
    rewrite isinstance_Exception.
    destruct (Hc [EvEncode (input_text +:+ eos_token cw); EvGenerate ids;
                  diagnostic e]) as (s & Hs & Hcs).
    exists s, [EvEncode (input_text +:+ eos_token cw); EvGenerate ids;
               diagnostic e].
    split; [|by split].
    unfold log_all in Hcs. cbn [globals stdin reads trace] in Hcs.
    rewrite <- Hcs. unfold diagnostic. by rewrite <- !app_assoc.
  - rewrite He. exec. rewrite Hm. exec. rewrite Hg. exec. rewrite Hd. exec.
    rewrite isinstance_Exception.
    destruct (Hc [EvEncode (input_text +:+ eos_token cw); EvGenerate ids;
                  EvDecode (drop (length ids) out); diagnostic e])
      as (s & Hs & Hcs).
    exists s, [EvEncode (input_text +:+ eos_token cw); EvGenerate ids;
               EvDecode (drop (length ids) out); diagnostic e].
    split; [|by split].
    unfold log_all in Hcs. cbn [globals stdin reads trace] in Hcs.
    rewrite <- Hcs. unfold diagnostic. by rewrite <- !app_assoc.
Qed.

Lemma library_error_falls_back_when_random_bound_witness :
  ∃ s evs,
    generate_response failing_call "hello"
      (PyState (<["random" := VModule "random"]>
                  (dictionary world_with_failing_model)) [] 0 [])
    = (Ok s,
       log_all evs
         (PyState (<["random" := VModule "random"]>
                     (dictionary world_with_failing_model)) [] 0 [])) ∧
    printed evs =
      ["Error generating DialoGPT response: " +:+
         exn_msg (Exn RuntimeError "boom")] ∧
    s ∈ responses.
Proof.
  apply (library_error_falls_back_when_random_bound failing_call "hello"
           (PyState (<["random" := VModule "random"]>
                       (dictionary world_with_failing_model)) [] 0 [])
           (VObject "tokenizer") (VObject "model")
           (Exn RuntimeError "boom")).
  - vm_compute. reflexivity.
  - vm_compute. reflexivity.
  - vm_compute. reflexivity.
  - vm_compute. reflexivity.
  - vm_compute. reflexivity.
  - right. left. exists [72; 105]. split; reflexivity.
Defined.
